(** * CSV ingestion and validation pipeline of the stock-records service

    Shallow embedding of
      - [src/middlewares/fileuploader.middleware.js]
        ([requiredColumns], [isNumeric], [validateCSVContent], the
        validation callback of [uploadCSV]),
      - the controller [insertValidRecords],
      - the upload handler [uploadCSV] and the stock queries
        [getHighest], [getAverageClose] and [getAverageVwap], with
        multer, [new Date] and the database as parameters,
    together with the parts of the JavaScript runtime and of the two
    libraries the middleware calls ([String.prototype.trim], [parseFloat],
    [isNaN], [isFinite]; [moment(v, "YYYY-MM-DD", true).isValid()];
    the row objects built by [csv-parser]).

    JavaScript strings are sequences of UTF-16 code units; they are
    modelled as [list N].  A property read that yields [undefined] is
    [None]. *)

From stdpp Require Import gmap list strings pretty sorting.
From Stdlib Require Import ZArith NArith Ascii Lia.

Open Scope N_scope.

(** ** JavaScript runtime *)

Module JS.

(** A string literal of the source, as code units. *)
Definition str (s : string) : list N :=
  map N_of_ascii (String.list_ascii_of_string s).

(** [span p s]: the longest prefix of [s] whose elements satisfy [p],
    and what follows it. *)
Fixpoint span {A} (p : A -> bool) (s : list A) : list A * list A :=
  match s with
  | [] => ([], [])
  | c :: r => if p c then let (a, b) := span p r in (c :: a, b)
              else ([], s)
  end.

Fixpoint dropWhile {A} (p : A -> bool) (s : list A) : list A :=
  match s with
  | [] => []
  | c :: r => if p c then dropWhile p r else s
  end.

(** ECMAScript WhiteSpace and LineTerminator code points, the characters
    removed by [trim] and skipped by [parseFloat] and [ToNumber]. *)
Definition isWhiteSpace (c : N) : bool :=
  ((9 <=? c) && (c <=? 13)) || (c =? 32) || (c =? 160) || (c =? 5760)
  || ((8192 <=? c) && (c <=? 8202)) || (c =? 8232) || (c =? 8233)
  || (c =? 8239) || (c =? 8287) || (c =? 12288) || (c =? 65279).

Definition trimStart (s : list N) : list N := dropWhile isWhiteSpace s.
Definition trimEnd (s : list N) : list N :=
  rev (dropWhile isWhiteSpace (rev s)).
(** [String.prototype.trim] *)
Definition trim (s : list N) : list N := trimEnd (trimStart s).

(** [ToString] on the values a row lookup can give: a string or
    [undefined]. *)
Definition ToString (v : option (list N)) : list N :=
  match v with
  | Some s => s
  | None => str "undefined"
  end.

(** What [isNaN] and [isFinite] observe of a Number value. *)
Inductive number := NaN | PosInfinity | NegInfinity | Finite.

Definition isNaN (x : number) : bool :=
  match x with NaN => true | _ => false end.

Definition numberIsFinite (x : number) : bool :=
  match x with Finite => true | _ => false end.

Definition isDigit (c : N) : bool := (48 <=? c) && (c <=? 57).

(** Value of a digit in a radix up to 16, [None] for any other
    character. *)
Definition digitOf (radix : Z) (c : N) : option Z :=
  let v :=
    if (48 <=? c) && (c <=? 57) then Some (Z.of_N c - 48)%Z
    else if (97 <=? c) && (c <=? 102) then Some (Z.of_N c - 87)%Z
    else if (65 <=? c) && (c <=? 70) then Some (Z.of_N c - 55)%Z
    else None in
  match v with
  | Some d => if (d <? radix)%Z then Some d else None
  | None => None
  end.

Definition isRadixDigit (radix : Z) (c : N) : bool :=
  match digitOf radix c with Some _ => true | None => false end.

(** Mathematical value of a digit sequence. *)
Definition digitsValue (radix : Z) (ds : list N) : Z :=
  fold_left (fun acc c => (acc * radix + default 0 (digitOf radix c))%Z)
            ds 0%Z.

(** A mathematical value [m * 10^e] with [0 <= m] rounds to a finite
    double exactly when it is below [2^1024 - 2^970], the midpoint
    between the largest double and [2^1024] (ties go to the even
    significand, which is [2^1024], that is Infinity). *)
Definition overflowBound : Z := (2 ^ 1024 - 2 ^ 970)%Z.

Definition roundsToFinite (m e : Z) : bool :=
  if (0 <=? e)%Z then (m * 10 ^ e <? overflowBound)%Z
  else (m <? overflowBound * 10 ^ (- e))%Z.

(** A parsed StrDecimalLiteral: [Infinity], or mantissa digits and a
    decimal exponent. *)
Inductive literal :=
| LitInfinity (negative : bool)
| LitDecimal (negative : bool) (mantissa : Z) (exponent : Z).

Definition numberOfLiteral (l : literal) : number :=
  match l with
  | LitInfinity false => PosInfinity
  | LitInfinity true => NegInfinity
  | LitDecimal neg m e =>
      if roundsToFinite m e then Finite
      else if neg then NegInfinity else PosInfinity
  end.

Fixpoint stripPrefix (p s : list N) : option (list N) :=
  match p, s with
  | [], _ => Some s
  | a :: p', b :: s' => if a =? b then stripPrefix p' s' else None
  | _ :: _, [] => None
  end.

(** Optional sign: [-] is 45, [+] is 43. *)
Definition scanSign (s : list N) : bool * list N :=
  match s with
  | c :: r => if c =? 45 then (true, r)
              else if c =? 43 then (false, r)
              else (false, s)
  | [] => (false, s)
  end.

(** ExponentPart, consumed only when it is complete: [e] or [E], an
    optional sign, at least one digit. *)
Definition scanExponent (s : list N) : Z * list N :=
  match s with
  | c :: r =>
      if (c =? 101) || (c =? 69) then
        let (neg, r1) := scanSign r in
        let (ds, r2) := span isDigit r1 in
        match ds with
        | [] => (0%Z, s)
        | _ => ((if neg then - digitsValue 10 ds else digitsValue 10 ds)%Z,
                r2)
        end
      else (0%Z, s)
  | [] => (0%Z, s)
  end.

(** Is the next character the decimal point (46)? *)
Definition startsWithDot (s : list N) : bool :=
  match s with
  | c :: _ => c =? 46
  | [] => false
  end.

(** Longest prefix of [s] that is a StrUnsignedDecimalLiteral. *)
Definition scanUnsignedDecimal (negative : bool) (s : list N)
  : option (literal * list N) :=
  match stripPrefix (str "Infinity") s with
  | Some r => Some (LitInfinity negative, r)
  | None =>
      let (ip, r1) := span isDigit s in
      if startsWithDot r1 then
        let (fp, r3) := span isDigit (tail r1) in
        match ip ++ fp with
        | [] => None
        | ds =>
            let (e, r4) := scanExponent r3 in
            Some (LitDecimal negative (digitsValue 10 ds)
                             (e - Z.of_nat (List.length fp)), r4)
        end
      else
        match ip with
        | [] => None
        | _ =>
            let (e, r4) := scanExponent r1 in
            Some (LitDecimal negative (digitsValue 10 ip) e, r4)
        end
  end.

(** Longest prefix of [s] that is a StrDecimalLiteral, with the rest. *)
Definition scanStrDecimalLiteral (s : list N)
  : option (literal * list N) :=
  let (neg, r) := scanSign s in scanUnsignedDecimal neg r.

(** [parseFloat]: leading white space is skipped, the longest prefix
    that is a StrDecimalLiteral is converted, anything after it is
    ignored; no such prefix gives NaN. *)
Definition parseFloat (v : option (list N)) : number :=
  match scanStrDecimalLiteral (trimStart (ToString v)) with
  | Some (l, _) => numberOfLiteral l
  | None => NaN
  end.

(** NonDecimalIntegerLiteral: [0x], [0o] or [0b] (either case) followed
    by at least one digit of that radix and nothing else; no sign. *)
Definition radixOfPrefix (c : N) : option Z :=
  if (c =? 120) || (c =? 88) then Some 16%Z
  else if (c =? 111) || (c =? 79) then Some 8%Z
  else if (c =? 98) || (c =? 66) then Some 2%Z
  else None.

Definition scanNonDecimalInteger (s : list N) : option Z :=
  match s with
  | z :: c :: d :: ds =>
      match radixOfPrefix c with
      | Some radix =>
          if (z =? 48) && forallb (isRadixDigit radix) (d :: ds)
          then Some (digitsValue radix (d :: ds))
          else None
      | None => None
      end
  | _ => None
  end.

(** [StringToNumber]: the whole string, white space trimmed at both
    ends, must be empty (giving 0) or a StrNumericLiteral. *)
Definition StringToNumber (s : list N) : number :=
  match trim s with
  | [] => Finite
  | t =>
      match scanNonDecimalInteger t with
      | Some n => if roundsToFinite n 0 then Finite else PosInfinity
      | None =>
          match scanStrDecimalLiteral t with
          | Some (l, []) => numberOfLiteral l
          | _ => NaN
          end
      end
  end.

(** [ToNumber] on a string or [undefined]. *)
Definition ToNumber (v : option (list N)) : number :=
  match v with
  | Some s => StringToNumber s
  | None => NaN
  end.

(** The global [isFinite] converts its argument with [ToNumber]. *)
Definition isFinite (v : option (list N)) : bool :=
  numberIsFinite (ToNumber v).

End JS.

(** ** moment: strict parsing against the format YYYY-MM-DD

    [moment(v, "YYYY-MM-DD", true).isValid()], following the library's
    [configFromStringAndFormat], [checkOverflow] and [isValid].  The
    format is split into the tokens YYYY, "-", MM, "-", DD; each token's
    strict-mode regular expression is searched in what is left of the
    input, the text before the match is skipped and recorded as unused;
    in strict mode the result is valid only when every token matched, no
    character was left unparsed and the numbers denote a date. *)

Module Moment.

Inductive token := YYYY | MM | DD | Literal (c : N).

(** The format string YYYY-MM-DD split into tokens ([-] is 45). *)
Definition formatTokens : list token :=
  [YYYY; Literal 45; MM; Literal 45; DD].

(** The tokens with a parse function; a literal character has none. *)
Definition isFormatToken (t : token) : bool :=
  match t with Literal _ => false | _ => true end.

(** [n] decimal digits at the head of [s]. *)
Definition digitsHere (n : nat) (s : list N) : option (list N) :=
  let p := take n s in
  if (List.length p =? n)%nat && forallb JS.isDigit p then Some p
  else None.

(** The strict-mode expression of a token, tried at the head of [s]:
    four digits for YYYY, two for MM and for DD, the character itself
    for a literal. *)
Definition matchHere (t : token) (s : list N) : option (list N) :=
  match t with
  | YYYY => digitsHere 4 s
  | MM | DD => digitsHere 2 s
  | Literal c =>
      match s with
      | x :: _ => if x =? c then Some [x] else None
      | [] => None
      end
  end.

(** [string.match(regex)]: the text of the leftmost match. *)
Fixpoint regexMatch (t : token) (s : list N) : option (list N) :=
  match matchHere t s with
  | Some m => Some m
  | None =>
      match s with
      | [] => None
      | _ :: r => regexMatch t r
      end
  end.

(** [string.indexOf(m)]: where [m] first occurs in [s], or -1. *)
Fixpoint indexOf (m s : list N) : Z :=
  match JS.stripPrefix m s with
  | Some _ => 0%Z
  | None =>
      match s with
      | [] => (-1)%Z
      | _ :: r =>
          let i := indexOf m r in
          if (i <? 0)%Z then (-1)%Z else (i + 1)%Z
      end
  end.

(** The parsing state: what is left of the input, the array of parsed
    year, month (from 0) and day of month, and the parsing flags. *)
Record config := {
  string_ : list N;
  a_YEAR : option Z;
  a_MONTH : option Z;
  a_DATE : option Z;
  empty : bool;
  unusedTokens : list token;
  unusedInput : list (list N);
  totalParsedInputLength : nat
}.

Definition toInt (s : list N) : Z := JS.digitsValue 10 s.

Definition addTimeToArrayFromToken (t : token) (input : list N)
    (c : config) : config :=
  match t with
  | YYYY =>
      {| string_ := string_ c; a_YEAR := Some (toInt input);
         a_MONTH := a_MONTH c; a_DATE := a_DATE c; empty := empty c;
         unusedTokens := unusedTokens c; unusedInput := unusedInput c;
         totalParsedInputLength := totalParsedInputLength c |}
  | MM =>
      {| string_ := string_ c; a_YEAR := a_YEAR c;
         a_MONTH := Some (toInt input - 1)%Z; a_DATE := a_DATE c;
         empty := empty c;
         unusedTokens := unusedTokens c; unusedInput := unusedInput c;
         totalParsedInputLength := totalParsedInputLength c |}
  | DD =>
      {| string_ := string_ c; a_YEAR := a_YEAR c;
         a_MONTH := a_MONTH c; a_DATE := Some (toInt input);
         empty := empty c;
         unusedTokens := unusedTokens c; unusedInput := unusedInput c;
         totalParsedInputLength := totalParsedInputLength c |}
  | Literal _ => c
  end.

(** One turn of the loop over the tokens. *)
Definition parseToken (c : config) (t : token) : config :=
  match regexMatch t (string_ c) with
  | Some parsedInput =>
      let i := indexOf parsedInput (string_ c) in
      let skipped := take (Z.to_nat i) (string_ c) in
      let c1 :=
        {| string_ :=
             drop (Z.to_nat (i + Z.of_nat (List.length parsedInput)))
                  (string_ c);
           a_YEAR := a_YEAR c; a_MONTH := a_MONTH c; a_DATE := a_DATE c;
           empty := if isFormatToken t then false else empty c;
           unusedTokens := unusedTokens c;
           unusedInput :=
             match skipped with
             | [] => unusedInput c
             | _ => unusedInput c ++ [skipped]
             end;
           totalParsedInputLength :=
             (totalParsedInputLength c + List.length parsedInput)%nat |} in
      addTimeToArrayFromToken t parsedInput c1
  | None =>
      (* a format token that found nothing is unused; so is, in strict
         mode, a literal that found nothing *)
      {| string_ := string_ c;
         a_YEAR := a_YEAR c; a_MONTH := a_MONTH c; a_DATE := a_DATE c;
         empty := empty c;
         unusedTokens := unusedTokens c ++ [t];
         unusedInput := unusedInput c;
         totalParsedInputLength := totalParsedInputLength c |}
  end.

Definition initialConfig (s : list N) : config :=
  {| string_ := s; a_YEAR := None; a_MONTH := None; a_DATE := None;
     empty := true; unusedTokens := []; unusedInput := [];
     totalParsedInputLength := 0 |}.

Definition isLeapYear (year : Z) : bool :=
  ((Z.rem year 4 =? 0) && negb (Z.rem year 100 =? 0))%Z
  || (Z.rem year 400 =? 0)%Z.

(** [month] counts from 0. *)
Definition daysInMonth (year month : Z) : Z :=
  let modMonth := (month mod 12)%Z in
  let year := (year + (month - modMonth) / 12)%Z in
  if (modMonth =? 1)%Z then (if isLeapYear year then 29 else 28)%Z
  else (31 - Z.rem (Z.rem modMonth 7) 2)%Z.

(** [checkOverflow]: 1 when the month is out of range, 2 when the day
    of month is, -1 when neither (the time fields are all 0 here). *)
Definition checkOverflow (year month date : Z) : Z :=
  if ((month <? 0) || (11 <? month))%Z then 1%Z
  else if ((date <? 1) || (daysInMonth year month <? date))%Z then 2%Z
  else (-1)%Z.

(** [isValid] in strict mode.  The strict flags are tested first: with
    no unused token the array holds the three parsed numbers, and no
    field is completed from the current date. *)
Definition isValid (v : option (list N)) : bool :=
  let s := JS.ToString v in
  let c := fold_left parseToken formatTokens (initialConfig s) in
  let charsLeftOver :=
    (Z.of_nat (List.length s) - Z.of_nat (totalParsedInputLength c))%Z in
  match unusedTokens c, a_YEAR c, a_MONTH c, a_DATE c with
  | [], Some y, Some m, Some d =>
      (checkOverflow y m d <? 0)%Z && negb (empty c)
      && (charsLeftOver =? 0)%Z
  | _, _, _, _ => false
  end.

End Moment.

(** ** csv-parser: the row objects

    The parser emits the header names as they stand in the first line
    and builds each row object from the cells of a line: the cell at
    position [index] is stored under the header of that position, or
    under [_index] when the line has more cells than the header. *)

Module CsvParser.

Definition writeRow (headers cells : list (list N))
  : gmap (list N) (list N) :=
  foldl (fun o '(index, cell) =>
           match headers !! index with
           | Some header => <[header := cell]> o
           | None => <[JS.str ("_" +:+ pretty index) := cell]> o
           end)
        ∅ (imap pair cells).

End CsvParser.

(** ** fileuploader.middleware.js *)

Module Uploader.

Abbreviation Row := (gmap (list N) (list N)).

(** List of required columns for validation *)
Definition requiredColumns : list (list N) :=
  map JS.str
    ["Date"; "Symbol"; "Series"; "Prev Close"; "Open"; "High"; "Low";
     "Last"; "Close"; "VWAP"; "Volume"; "Turnover"; "Trades";
     "Deliverable Volume"; "%Deliverble"]%string.

(** [const isNumeric = (value) => !isNaN(parseFloat(value)) &&
    isFinite(value)] *)
Definition isNumeric (value : option (list N)) : bool :=
  negb (JS.isNaN (JS.parseFloat value)) && JS.isFinite value.

(** The object handed to the callback; a field the object does not
    have is [None]. *)
Record ValidationResult := {
  success : bool;
  message : option (list N);
  missingColumns : option (list (list N));
  totalRecords : option nat;
  r_successfulRecords : option nat;
  r_failedRecords : option nat;
  r_validRows : option (list Row);
  r_invalidRows : option (list Row)
}.

(** The variables [validateCSVContent] closes over. *)
Record State := {
  headersSet : gset (list N);
  validRows : list Row;
  invalidRows : list Row;
  successfulRecords : nat;
  failedRecords : nat
}.

Definition initialState : State :=
  {| headersSet := ∅; validRows := []; invalidRows := [];
     successfulRecords := 0; failedRecords := 0 |}.

(** What the parser stream emits. *)
Inductive event :=
| EvHeaders (headers : list (list N))
| EvData (row : Row)
| EvEnd
| EvError (message : list N).

(** [requiredColumns.filter((col) => !headersSet.has(col))] *)
Definition missingFrom (hs : gset (list N)) : list (list N) :=
  filter (fun col => col ∉ hs) requiredColumns.

(** Handlers return the new state and the calls of [cb] they make. *)
Definition onHeaders (st : State) (headers : list (list N))
  : State * list ValidationResult :=
  let hs := foldl (fun set header => set ∪ {[JS.trim header]})
                  (headersSet st) headers in
  let st' := {| headersSet := hs; validRows := validRows st;
                invalidRows := invalidRows st;
                successfulRecords := successfulRecords st;
                failedRecords := failedRecords st |} in
  let missing := missingFrom hs in
  if (0 <? List.length missing)%nat then
    (st', [{| success := false;
              message := Some (JS.str "Missing required columns");
              missingColumns := Some missing;
              totalRecords := None; r_successfulRecords := None;
              r_failedRecords := None; r_validRows := None;
              r_invalidRows := None |}])
  else (st', []).

(** The body of the [data] handler up to the classification: the
    thirteen fields taken out of the row, the flag, the date check and
    the loop over the numeric fields. *)
Definition rowIsValid (row : Row) : bool :=
  let Date := row !! JS.str "Date" in
  let PrevClose := row !! JS.str "Prev Close" in
  let Open := row !! JS.str "Open" in
  let High := row !! JS.str "High" in
  let Low := row !! JS.str "Low" in
  let Last := row !! JS.str "Last" in
  let Close := row !! JS.str "Close" in
  let VWAP := row !! JS.str "VWAP" in
  let Volume := row !! JS.str "Volume" in
  let Turnover := row !! JS.str "Turnover" in
  let Trades := row !! JS.str "Trades" in
  let Deliverable := row !! JS.str "Deliverable Volume" in
  let DeliverablePercentage := row !! JS.str "%Deliverble" in
  let isValid := true in
  let isValid := if negb (Moment.isValid Date) then false else isValid in
  let numericFields :=
    [PrevClose; Open; High; Low; Last; Close; VWAP; Volume; Turnover;
     Trades; Deliverable; DeliverablePercentage] in
  foldl (fun isValid field =>
           if negb (isNumeric field) then false else isValid)
        isValid numericFields.

Definition onData (st : State) (row : Row)
  : State * list ValidationResult :=
  if rowIsValid row then
    ({| headersSet := headersSet st;
        validRows := validRows st ++ [row];
        invalidRows := invalidRows st;
        successfulRecords := S (successfulRecords st);
        failedRecords := failedRecords st |}, [])
  else
    ({| headersSet := headersSet st;
        validRows := validRows st;
        invalidRows := invalidRows st ++ [row];
        successfulRecords := successfulRecords st;
        failedRecords := S (failedRecords st) |}, []).

Definition onEnd (st : State) : State * list ValidationResult :=
  (st, [{| success := true; message := None; missingColumns := None;
           totalRecords := Some (successfulRecords st + failedRecords st)%nat;
           r_successfulRecords := Some (successfulRecords st);
           r_failedRecords := Some (failedRecords st);
           r_validRows := Some (validRows st);
           r_invalidRows := Some (invalidRows st) |}]).

Definition onError (st : State) (msg : list N)
  : State * list ValidationResult :=
  (st, [{| success := false; message := Some msg;
           missingColumns := None; totalRecords := None;
           r_successfulRecords := None; r_failedRecords := None;
           r_validRows := None; r_invalidRows := None |}]).

Definition handle (st : State) (e : event)
  : State * list ValidationResult :=
  match e with
  | EvHeaders headers => onHeaders st headers
  | EvData row => onData st row
  | EvEnd => onEnd st
  | EvError msg => onError st msg
  end.

(** The handlers run on the events in the order the stream emits them;
    no handler detaches the others or closes the stream. *)
Fixpoint run (st : State) (events : list event)
  : State * list ValidationResult :=
  match events with
  | [] => (st, [])
  | e :: rest =>
      let (st1, out1) := handle st e in
      let (st2, out2) := run st1 rest in
      (st2, out1 ++ out2)
  end.

(** [validateCSVContent(filePath, cb)]: the calls of [cb], in order,
    for the events the parser emits on the file. *)
Definition validateCSVContent (events : list event)
  : list ValidationResult :=
  snd (run initialState events).

(** The events of a file that is read to its end: the header line,
    the data lines, the end of the stream. *)
Definition completeStream (headers : list (list N))
    (lines : list (list (list N))) : list event :=
  EvHeaders headers
  :: map (fun cells => EvData (CsvParser.writeRow headers cells)) lines
  ++ [EvEnd].

End Uploader.

(** ** The upload route: validation callback and insertValidRecords

    [router.post("/upload", uploadCSV, insertValidRecords)].  The
    Persistence Gateway ([RecordModel.insertMany]) is a parameter: it
    answers with the inserted records or rejects. *)

Module Route.
Import Uploader.

(** The document built from an accepted row; [row.X] of an absent
    column is [undefined]. *)
Record PersistedRecord := {
  date : option (list N);
  symbol : option (list N);
  series : option (list N);
  prev_close : option (list N);
  open : option (list N);
  high : option (list N);
  low : option (list N);
  last : option (list N);
  close : option (list N);
  vwap : option (list N);
  volume : option (list N);
  turnover : option (list N);
  trades : option (list N);
  deliverable : option (list N);
  percentage_deliverable : option (list N)
}.

Definition toRecord (row : Row) : PersistedRecord :=
  {| date := row !! JS.str "Date";
     symbol := row !! JS.str "Symbol";
     series := row !! JS.str "Series";
     prev_close := row !! JS.str "Prev Close";
     open := row !! JS.str "Open";
     high := row !! JS.str "High";
     low := row !! JS.str "Low";
     last := row !! JS.str "Last";
     close := row !! JS.str "Close";
     vwap := row !! JS.str "VWAP";
     volume := row !! JS.str "Volume";
     turnover := row !! JS.str "Turnover";
     trades := row !! JS.str "Trades";
     deliverable := row !! JS.str "Deliverable Volume";
     percentage_deliverable := row !! JS.str "%Deliverble" |}.

(** The fields the middleware stores on the request. *)
Record Request := {
  req_validRows : option (list Row);
  req_invalidRows : option (list Row);
  req_validationDetails : option ValidationResult
}.

Section Gateway.
Context {Inserted Failure : Type}.
Variable insertMany : list PersistedRecord -> Inserted + Failure.

Inductive Body :=
| ValidationFailed (details : ValidationResult)
| RecordsInserted (insertedRecords : Inserted)
                  (validationDetails : option ValidationResult)
| InsertionFailed (error : Failure)
| NoValidRows.

(** The [msg] field of a response body. *)
Definition msg (b : Body) : string :=
  match b with
  | ValidationFailed _ => "CSV validation failed"
  | RecordsInserted _ _ => "Records inserted successfully"
  | InsertionFailed _ => "DB insertion failed"
  | NoValidRows => "No valid rows to insert into the database"
  end.

Record Response := { status : Z; body : Body }.

(** What one run of a handler does on a request that has not been
    answered yet: the arguments of its calls of [insertMany], and the
    response it sends.  The validation callback runs on such a request
    when it is called for the first time; [res.json] throws once a
    response has been sent, so a later call of the callback (there is one
    after a rejected header) sends nothing.  The calls of [insertMany]
    are made before the response and are the same in both cases. *)
Record Outcome := {
  gatewayCalls : list (list PersistedRecord);
  response : Response
}.

(** [insertValidRecords(req, res)], no response sent before. *)
Definition insertValidRecords (req : Request) : Outcome :=
  let validRows := default [] (req_validRows req) in
  if (0 <? List.length validRows)%nat then
    let records := map toRecord validRows in
    match insertMany records with
    | inl insertedRecords =>
        {| gatewayCalls := [records];
           response :=
             {| status := 201;
                body := RecordsInserted insertedRecords
                          (req_validationDetails req) |} |}
    | inr error =>
        {| gatewayCalls := [records];
           response := {| status := 500;
                          body := InsertionFailed error |} |}
    end
  else
    {| gatewayCalls := [];
       response := {| status := 400; body := NoValidRows |} |}.

(** The callback [uploadCSV] gives to [validateCSVContent], with
    [next] the following handler of the route, no response sent
    before. *)
Definition onValidationResult (next : Request -> Outcome)
    (validationResult : ValidationResult) : Outcome :=
  if negb (success validationResult) then
    {| gatewayCalls := [];
       response := {| status := 400;
                      body := ValidationFailed validationResult |} |}
  else
    next {| req_validRows := r_validRows validationResult;
            req_invalidRows := r_invalidRows validationResult;
            req_validationDetails := Some validationResult |}.

(** The route on one validation result, no response sent before. *)
Definition upload (validationResult : ValidationResult) : Outcome :=
  onValidationResult insertValidRecords validationResult.

End Gateway.

End Route.

(** ** Reference notions the properties are stated against *)

Module Spec.
Import Uploader.

(** The required columns other than Date, Symbol and Series. *)
Definition numericColumns : list (list N) :=
  filter (fun col => col ∉ map JS.str ["Date"; "Symbol"; "Series"]%string)
         requiredColumns.

(** The columns a row is checked on. *)
Definition validatedColumns : list (list N) :=
  JS.str "Date" :: numericColumns.

(** A row passes every check. *)
Definition passesAllChecks (row : Row) : bool :=
  Moment.isValid (row !! JS.str "Date")
  && forallb (fun col => isNumeric (row !! col)) numericColumns.

(** Every required column is among the trimmed header names. *)
Definition headerComplete (headers : list (list N)) : Prop :=
  ∀ col, col ∈ requiredColumns → col ∈ JS.trim <$> headers.

Definition headerCompleteb (headers : list (list N)) : bool :=
  forallb (fun col => bool_decide (col ∈ JS.trim <$> headers))
          requiredColumns.

(** The accumulators after the rows [rows] have been classified. *)
Definition accumulate (st : State) (rows : list Row) : State :=
  {| headersSet := headersSet st;
     validRows := validRows st ++ filter (fun r => rowIsValid r) rows;
     invalidRows :=
       invalidRows st ++ filter (fun r => ¬ rowIsValid r) rows;
     successfulRecords :=
       successfulRecords st
       + List.length (filter (fun r => rowIsValid r) rows);
     failedRecords :=
       failedRecords st
       + List.length (filter (fun r => ¬ rowIsValid r) rows) |}%nat.

(** The summary of a stream with the data rows [rows], read to its
    end. *)
Definition summaryOf (rows : list Row) : ValidationResult :=
  let vs := filter (fun r => rowIsValid r) rows in
  let bs := filter (fun r => ¬ rowIsValid r) rows in
  {| success := true; message := None; missingColumns := None;
     totalRecords := Some (List.length vs + List.length bs)%nat;
     r_successfulRecords := Some (List.length vs);
     r_failedRecords := Some (List.length bs);
     r_validRows := Some vs; r_invalidRows := Some bs |}.

(** Rows tagged with their position in the input. *)
Definition indexed {A} (l : list A) : list (nat * A) := imap pair l.

(** Merge of two sequences of tagged rows, smaller index first. *)
Fixpoint mergeByIndex {A} (xs ys : list (nat * A)) : list (nat * A) :=
  match xs with
  | [] => ys
  | x :: xs' =>
      (fix into (ys : list (nat * A)) : list (nat * A) :=
         match ys with
         | [] => x :: xs'
         | y :: ys' =>
             if (x.1 <=? y.1)%nat then x :: mergeByIndex xs' ys
             else y :: into ys'
         end) ys
  end.

(** Days of a month (1 to 12) of the proleptic Gregorian calendar. *)
Definition leapYear (y : Z) : Prop :=
  ((y mod 4 = 0 ∧ y mod 100 ≠ 0) ∨ y mod 400 = 0)%Z.

Definition daysOfMonth (y m : Z) (n : Z) : Prop :=
  ((m = 1 ∨ m = 3 ∨ m = 5 ∨ m = 7 ∨ m = 8 ∨ m = 10 ∨ m = 12) ∧ n = 31)%Z
  ∨ ((m = 4 ∨ m = 6 ∨ m = 9 ∨ m = 11) ∧ n = 30)%Z
  ∨ (m = 2 ∧ leapYear y ∧ n = 29)%Z
  ∨ (m = 2 ∧ ¬ leapYear y ∧ n = 28)%Z.

(** Number written by a sequence of decimal digit characters. *)
Fixpoint decimalValue (ds : list N) : Z :=
  match ds with
  | [] => 0
  | d :: r => (Z.of_N d - 48) * 10 ^ Z.of_nat (List.length r)
              + decimalValue r
  end%Z.

Definition isDigits (ds : list N) : Prop :=
  Forall (fun c => 48 ≤ c ≤ 57) ds.

(** The text is YYYY-MM-DD, with zero-padded fields, and names a day
    that exists. *)
Definition calendarDate (s : list N) : Prop :=
  ∃ yyyy mm dd n,
    s = yyyy ++ [45] ++ mm ++ [45] ++ dd
    ∧ List.length yyyy = 4%nat ∧ List.length mm = 2%nat
    ∧ List.length dd = 2%nat
    ∧ isDigits yyyy ∧ isDigits mm ∧ isDigits dd
    ∧ daysOfMonth (decimalValue yyyy) (decimalValue mm) n
    ∧ (1 ≤ decimalValue dd ≤ n)%Z.

(** *** Numeric literals *)

(** An optional sign, as text and as "is negative". *)
Inductive signText : list N -> bool -> Prop :=
| sign_none : signText [] false
| sign_plus : signText [43] false
| sign_minus : signText [45] true.

(** An optional exponent part and its value. *)
Inductive exponentText : list N -> Z -> Prop :=
| exponent_none : exponentText [] 0
| exponent_some e sg neg ds :
    e = 101 ∨ e = 69 -> signText sg neg -> ds ≠ [] -> isDigits ds ->
    exponentText (e :: sg ++ ds)
      (if neg then - decimalValue ds else decimalValue ds)%Z.

(** An unsigned decimal literal other than Infinity, with its digits
    read as an integer [m] and the power of ten [e] scaling it:
    digits [.] digits-opt exponent-opt; [.] digits exponent-opt;
    digits exponent-opt. *)
Inductive unsignedDecimalText : list N -> Z -> Z -> Prop :=
| decimal_point ip fp ex e :
    ip ≠ [] -> isDigits ip -> isDigits fp -> exponentText ex e ->
    unsignedDecimalText (ip ++ 46 :: fp ++ ex)
      (decimalValue (ip ++ fp)) (e - Z.of_nat (List.length fp))
| decimal_fraction fp ex e :
    fp ≠ [] -> isDigits fp -> exponentText ex e ->
    unsignedDecimalText (46 :: fp ++ ex)
      (decimalValue fp) (e - Z.of_nat (List.length fp))
| decimal_integer ip ex e :
    ip ≠ [] -> isDigits ip -> exponentText ex e ->
    unsignedDecimalText (ip ++ ex) (decimalValue ip) e.

(** [m * 10^e] is below [2^1024 - 2^970], the least magnitude that
    converts to Infinity. *)
Definition belowOverflow (m e : Z) : Prop :=
  (0 ≤ e ∧ m * 10 ^ e < 2 ^ 1024 - 2 ^ 970
   ∨ e < 0 ∧ m < (2 ^ 1024 - 2 ^ 970) * 10 ^ (- e))%Z.

(** The text is a decimal number, optionally signed, whose value is
    finite as a double. *)
Definition finiteDecimal (t : list N) : Prop :=
  ∃ sg neg body m e,
    t = sg ++ body ∧ signText sg neg ∧ unsignedDecimalText body m e
    ∧ belowOverflow m e.

(** Value of a hexadecimal, octal or binary digit character. *)
Definition radixDigit (radix : Z) (c : N) (d : Z) : Prop :=
  (48 ≤ c ≤ 57 ∧ d = (Z.of_N c - 48)%Z
   ∨ 97 ≤ c ≤ 102 ∧ d = (Z.of_N c - 87)%Z
   ∨ 65 ≤ c ≤ 70 ∧ d = (Z.of_N c - 55)%Z)
  ∧ (d < radix)%Z.

Inductive radixValue (radix : Z) : list N -> Z -> Prop :=
| radix_nil : radixValue radix [] 0
| radix_snoc ds v c d :
    radixValue radix ds v -> radixDigit radix c d ->
    radixValue radix (ds ++ [c]) (v * radix + d).

(** The text is [0x], [0o] or [0b] (either case) followed by digits of
    that radix, with a value finite as a double. *)
Definition finiteRadixInteger (t : list N) : Prop :=
  ∃ p radix ds v,
    t = 48 :: p :: ds ∧ ds ≠ []
    ∧ ((p = 120 ∨ p = 88) ∧ radix = 16%Z
       ∨ (p = 111 ∨ p = 79) ∧ radix = 8%Z
       ∨ (p = 98 ∨ p = 66) ∧ radix = 2%Z)
    ∧ radixValue radix ds v
    ∧ (v < 2 ^ 1024 - 2 ^ 970)%Z.

(** The characters that occur in numeric literals: digits, the letters
    of hexadecimal digits (among them e, E, b, B), the signs, the point
    and the radix letters x, X, o, O. *)
Definition numericChar (c : N) : Prop :=
  48 ≤ c ≤ 57 ∨ 97 ≤ c ≤ 102 ∨ 65 ≤ c ≤ 70
  ∨ c = 43 ∨ c = 45 ∨ c = 46 ∨ c = 120 ∨ c = 88 ∨ c = 111 ∨ c = 79.

End Spec.

(** ** Auxiliary notions of the proofs *)

Module Aux.
Import Moment.

(** The configuration after a token matched the text [m] at the head of
    the input, with [r] the input after it. *)
Definition matched (c : config) (t : token) (m r : list N) : config :=
  addTimeToArrayFromToken t m
    {| string_ := r;
       a_YEAR := a_YEAR c; a_MONTH := a_MONTH c; a_DATE := a_DATE c;
       empty := if isFormatToken t then false else empty c;
       unusedTokens := unusedTokens c;
       unusedInput := unusedInput c;
       totalParsedInputLength :=
         (totalParsedInputLength c + List.length m)%nat |}.

Definition measure (c : config) : nat :=
  (List.length (string_ c) + totalParsedInputLength c)%nat.

(** What follows a maximal run: nothing, or a character outside it. *)
Definition stops {A} (p : A → bool) (b : list A) : Prop :=
  match b with [] => True | c :: _ => p c = false end.

(** The text begins like an unsigned decimal literal: with Infinity,
    with a digit, or with the point and a digit. *)
Definition decimalStart (s : list N) : bool :=
  match JS.stripPrefix (JS.str "Infinity") s with
  | Some _ => true
  | None =>
      match s with
      | c :: r =>
          JS.isDigit c
          || ((c =? 46) && match r with d :: _ => JS.isDigit d | [] => false end)
      | [] => false
      end
  end.

Definition startsDecimal (t : list N) : bool :=
  decimalStart (snd (JS.scanSign t)).

End Aux.

(** ** Sample inputs *)

Module Samples.
Import Uploader.

Definition cells (l : list string) : list (list N) := map JS.str l.

(** The header line with exactly the required columns. *)
Definition header : list (list N) := requiredColumns.

(** The header line without the column Prev Close. *)
Definition headerNoPrevClose : list (list N) :=
  cells ["Date"; "Symbol"; "Series"; "Open"; "High"; "Low"; "Last";
         "Close"; "VWAP"; "Volume"; "Turnover"; "Trades";
         "Deliverable Volume"; "%Deliverble"]%string.

(** The header line without the column Symbol. *)
Definition headerNoSymbol : list (list N) :=
  cells ["Date"; "Series"; "Prev Close"; "Open"; "High"; "Low"; "Last";
         "Close"; "VWAP"; "Volume"; "Turnover"; "Trades";
         "Deliverable Volume"; "%Deliverble"]%string.

(** The header line with the name of one column padded. *)
Definition headerPaddedDate : list (list N) :=
  cells [" Date"; "Symbol"; "Series"; "Prev Close"; "Open"; "High"; "Low";
         "Last"; "Close"; "VWAP"; "Volume"; "Turnover"; "Trades";
         "Deliverable Volume"; "%Deliverble"]%string.

Definition headerPaddedSymbol : list (list N) :=
  cells ["Date"; " Symbol"; "Series"; "Prev Close"; "Open"; "High"; "Low";
         "Last"; "Close"; "VWAP"; "Volume"; "Turnover"; "Trades";
         "Deliverable Volume"; "%Deliverble"]%string.

(** 2024-10-22,AAPL,EQ,150,152,153,149,151,150.5,151.25,1000000,
    150000000,1000,800000,80 *)
Definition goodLine : list (list N) :=
  cells ["2024-10-22"; "AAPL"; "EQ"; "150"; "152"; "153"; "149"; "151";
         "150.5"; "151.25"; "1000000"; "150000000"; "1000"; "800000";
         "80"]%string.

(** The same line with the date written 22-10-2024. *)
Definition badDateLine : list (list N) :=
  cells ["22-10-2024"; "AAPL"; "EQ"; "150"; "152"; "153"; "149"; "151";
         "150.5"; "151.25"; "1000000"; "150000000"; "1000"; "800000";
         "80"]%string.

(** A line that stops after the third cell. *)
Definition shortLine : list (list N) :=
  cells ["2024-10-22"; "AAPL"; "EQ"]%string.

(** The good line without the cell of Prev Close, and without the
    cell of Symbol. *)
Definition lineNoPrevClose : list (list N) :=
  cells ["2024-10-22"; "AAPL"; "EQ"; "152"; "153"; "149"; "151";
         "150.5"; "151.25"; "1000000"; "150000000"; "1000"; "800000";
         "80"]%string.

Definition lineNoSymbol : list (list N) :=
  cells ["2024-10-22"; "EQ"; "150"; "152"; "153"; "149"; "151";
         "150.5"; "151.25"; "1000000"; "150000000"; "1000"; "800000";
         "80"]%string.

Definition goodRow : Row := CsvParser.writeRow header goodLine.
Definition badDateRow : Row := CsvParser.writeRow header badDateLine.
Definition shortRow : Row := CsvParser.writeRow header shortLine.

End Samples.

(** ** fileuploader.middleware.js: the upload handler

    [uploadCSV] runs multer and, in multer's callback, answers 400 when
    multer reports an error or stored no file, and otherwise reads the
    stored file with [validateCSVContent], whose callback answers 400 on
    a failure and hands a success to the next handler of the route.
    What multer reports and the events the parser emits on the stored
    file are the inputs. *)

Module Upload.
Import Uploader.

Section Handler.
Context {Inserted Failure : Type}.
Variable insertMany : list Route.PersistedRecord -> Inserted + Failure.

(** What a request leads to: the answer to a failed upload, the answer
    to a request without a file, or, for each call of the validation
    callback, what the callback and the handler after it do on a request
    not answered yet.  The first entry is the answer of the request; when
    the callback is called once, it is the only entry. *)
Inductive Reply :=
| UploadFailed (error : list N)
| NoFileUploaded
| Validated (outcome : Route.Outcome (Inserted := Inserted)
                                     (Failure := Failure)).

Definition replyStatus (r : Reply) : Z :=
  match r with
  | UploadFailed _ => 400
  | NoFileUploaded => 400
  | Validated o => Route.status (Route.response o)
  end.

Definition replyCalls (r : Reply) : list (list Route.PersistedRecord) :=
  match r with
  | Validated o => Route.gatewayCalls o
  | _ => []
  end.

(** [err] is the message of multer's error, if any; [file] is the
    stream of the stored file, if one was stored.  An entry after the
    first stands for a call of the callback on a request that has been
    answered: its response is not sent. *)
Definition uploadCSV (err : option (list N)) (file : option (list event))
  : list Reply :=
  match err with
  | Some message => [UploadFailed message]
  | None =>
      match file with
      | None => [NoFileUploaded]
      | Some events =>
          map (fun validationResult =>
                 Validated (Route.upload insertMany validationResult))
              (validateCSVContent events)
      end
  end.

End Handler.

End Upload.

(** ** The stock queries: highest volume, average close, average VWAP

    The three handlers read their parameters from the query string,
    check them, query the records and answer.  [new Date(s)] and the
    database are parameters: dates are parsed by the runtime, and the
    queries are run by the database.  Query parameters are taken as
    single strings; a parameter that is not given is [None]. *)

Module Stocks.

Record Query := {
  start_date : option (list N);
  end_date : option (list N);
  symbol : option (list N);
  limit : option (list N)
}.

(** [!v] is false exactly when [v] is a non-empty string. *)
Definition given (v : option (list N)) : bool :=
  match v with
  | Some (_ :: _) => true
  | _ => false
  end.

(** The Number [parseInt] returns: NaN, or an integer with its sign
    (zero keeps its sign). *)
Inductive integer :=
| IntNaN
| IntValue (negative : bool) (magnitude : Z).

(** [parseInt(v)], no radix given: leading white space and one sign are
    skipped, [0x] or [0X] selects radix 16, otherwise the radix is 10;
    the longest run of digits of the radix is read, and an empty run
    gives NaN. *)
Definition parseInt (v : option (list N)) : integer :=
  let text := JS.trimStart (JS.ToString v) in
  let (negative, text) := JS.scanSign text in
  let (radix, text) :=
    match text with
    | a :: b :: rest =>
        if (a =? 48) && ((b =? 120) || (b =? 88)) then (16%Z, rest)
        else (10%Z, text)
    | _ => (10%Z, text)
    end in
  let (digits, _) := JS.span (JS.isRadixDigit radix) text in
  match digits with
  | [] => IntNaN
  | _ => IntValue negative (JS.digitsValue radix digits)
  end.

(** [parseInt(limit) || 1]: NaN and zero give 1.  The result is the
    integer read.  It is the Number the code has when its magnitude is at
    most 2^53; a longer run of digits is rounded to a double by the
    runtime, which this integer does not show. *)
Definition queryLimit (limit : option (list N)) : Z :=
  match parseInt limit with
  | IntNaN => 1
  | IntValue negative magnitude =>
      if (magnitude =? 0)%Z then 1
      else if negative then (- magnitude)%Z else magnitude
  end.

Definition missingThree : list N :=
  JS.str "Missing required query parameters: 'start_date', 'end_date', and 'symbol' are required.".

Definition missingTwo : list N :=
  JS.str "Missing required query parameters: 'start_date' and 'end_date' are required.".

Definition invalidDate : list N :=
  JS.str "Invalid date format. Please provide 'start_date' and 'end_date' in a valid format (e.g., YYYY-MM-DD).".

Section Handlers.
Context {Date Num Doc Sym Failure : Type}.

(** [new Date(s)], [None] when its time value is NaN. *)
Variable newDate : list N -> option Date.

(** The [$match] stage, also the filter of [find]: the two bounds of
    the date and, when there is one, the symbol. *)
Record Match := {
  date_gte : Date;
  date_lte : Date;
  match_symbol : option (list N)
}.

(** The pipeline of [getHighest]: the [$match] stage and the [$limit];
    the [$group] and [$sort] stages between them are constant. *)
Record HighestPipeline := {
  highest_match : Match;
  highest_limit : Z
}.

(** A group of the pipeline of [getHighest]. *)
Record Group := {
  group_date : Date;
  group_symbol : Sym;
  group_volume : Num
}.

Inductive Body :=
| Message (message : list N)
| AverageVwap (symbol start_date end_date : list N) (average_vwap : Num)
| AverageClose (symbol start_date end_date : list N)
               (average_close : list N)
| HighestVolume (highest_volume : list (list N * Sym * Num)).

Record Response := { status : Z; body : Body }.

(** What a handler did: the queries it sent, and its answer. *)
Record Outcome (Q : Type) := {
  queries : list Q;
  response : Response
}.
Arguments queries {Q} _.
Arguments response {Q} _.

Definition respond {Q} (code : Z) (b : Body) : Outcome Q :=
  {| queries := []; response := {| status := code; body := b |} |}.

(** *** getAverageVwap *)

(** [RecordModel.aggregate(pipeline)]: the [average_vwap] of each row of
    the result, or a rejection. *)
Variable aggregateVwap : Match -> list Num + Failure.

Definition getAverageVwap (q : Query) : Outcome Match :=
  if negb (given (start_date q)) || negb (given (end_date q))
     || negb (given (symbol q))
  then respond 400 (Message missingThree)
  else
    let start_date := JS.ToString (start_date q) in
    let end_date := JS.ToString (end_date q) in
    let symbol := JS.ToString (symbol q) in
    match newDate start_date, newDate end_date with
    | Some from, Some to =>
        let pipeline := {| date_gte := from; date_lte := to;
                           match_symbol := Some symbol |} in
        {| queries := [pipeline];
           response :=
             match aggregateVwap pipeline with
             | inl [] =>
                 {| status := 404;
                    body := Message
                      (JS.str "No records found for symbol '" ++ symbol
                       ++ JS.str "' within the date range.") |}
             | inl (first :: _) =>
                 {| status := 200;
                    body := AverageVwap symbol start_date end_date first |}
             | inr _ =>
                 {| status := 500;
                    body := Message
                      (JS.str "An error occurred while calculating the average VWAP. Please try again later.") |}
             end |}
    | _, _ => respond 400 (Message invalidDate)
    end.

(** *** getAverageClose *)

(** [RecordModel.find(filter)]: the records, or a rejection. *)
Variable find : Match -> list Doc + Failure.

(** The [close] of a record, and the arithmetic of Numbers the handler
    uses: 0, [+], division by a length, [toFixed(2)]. *)
Variable close : Doc -> Num.
Variable zero : Num.
Variable add : Num -> Num -> Num.
Variable divide : Num -> nat -> Num.
Variable toFixed2 : Num -> list N.

Definition getAverageClose (q : Query) : Outcome Match :=
  if negb (given (start_date q)) || negb (given (end_date q))
     || negb (given (symbol q))
  then respond 400 (Message missingThree)
  else
    let start_date := JS.ToString (start_date q) in
    let end_date := JS.ToString (end_date q) in
    let symbol := JS.ToString (symbol q) in
    match newDate start_date, newDate end_date with
    | Some from, Some to =>
        let filter := {| date_gte := from; date_lte := to;
                         match_symbol := Some symbol |} in
        {| queries := [filter];
           response :=
             match find filter with
             | inl [] =>
                 {| status := 404;
                    body := Message
                      (JS.str "No records found for symbol '" ++ symbol
                       ++ JS.str "' between '" ++ start_date
                       ++ JS.str "' and '" ++ end_date ++ JS.str "'.") |}
             | inl result =>
                 let totalClose :=
                   foldl (fun totalClose record => add totalClose (close record))
                         zero result in
                 let average_close := divide totalClose (List.length result) in
                 {| status := 200;
                    body := AverageClose symbol start_date end_date
                              (toFixed2 average_close) |}
             | inr _ =>
                 {| status := 500;
                    body := Message
                      (JS.str "An error occurred while calculating the average close. Please try again later.") |}
             end |}
    | _, _ => respond 400 (Message invalidDate)
    end.

(** *** getHighest *)

(** [RecordModel.aggregate(pipeline)]: the groups, or a rejection. *)
Variable aggregateHighest : HighestPipeline -> list Group + Failure.

(** [date.toISOString().split("T")[0]] *)
Variable isoDay : Date -> list N.

Definition getHighest (q : Query) : Outcome HighestPipeline :=
  if negb (given (start_date q)) || negb (given (end_date q))
  then respond 400 (Message missingTwo)
  else
    let start_date := JS.ToString (start_date q) in
    let end_date := JS.ToString (end_date q) in
    match newDate start_date, newDate end_date with
    | Some from, Some to =>
        let queryLimit := queryLimit (limit q) in
        let pipeline :=
          {| highest_match :=
               {| date_gte := from; date_lte := to;
                  match_symbol :=
                    if given (symbol q) then symbol q else None |};
             highest_limit := queryLimit |} in
        {| queries := [pipeline];
           response :=
             match aggregateHighest pipeline with
             | inl [] =>
                 {| status := 404;
                    body := Message
                      (JS.str "No records found for the given criteria.") |}
             | inl result =>
                 {| status := 200;
                    body := HighestVolume
                      (map (fun record =>
                              (isoDay (group_date record),
                               group_symbol record, group_volume record))
                           result) |}
             | inr _ =>
                 {| status := 500;
                    body := Message
                      (JS.str "An error occurred while fetching the highest volume. Please try again later.") |}
             end |}
    | _, _ => respond 400 (Message invalidDate)
    end.

End Handlers.

Arguments queries {Num Sym Q} _.
Arguments response {Num Sym Q} _.

End Stocks.

(** ** Further notions the properties are stated against *)

Module Notions.
Import Uploader.

(** The rows of the data events of a sequence of events, in order. *)
Definition dataRows (events : list event) : list Row :=
  omap (fun e => match e with EvData row => Some row | _ => None end) events.

(** The result of a rejected header. *)
Definition rejection (missing : list (list N)) : ValidationResult :=
  {| success := false;
     message := Some (JS.str "Missing required columns");
     missingColumns := Some missing;
     totalRecords := None; r_successfulRecords := None;
     r_failedRecords := None; r_validRows := None;
     r_invalidRows := None |}.

(** The result of a stream error. *)
Definition failure (msg : list N) : ValidationResult :=
  {| success := false; message := Some msg;
     missingColumns := None; totalRecords := None;
     r_successfulRecords := None; r_failedRecords := None;
     r_validRows := None; r_invalidRows := None |}.

(** The counters of a result agree with its sequences. *)
Definition consistent (r : ValidationResult) : Prop :=
  ∃ ok failed vs bs,
    totalRecords r = Some (ok + failed)%nat
    ∧ r_successfulRecords r = Some ok
    ∧ r_failedRecords r = Some failed
    ∧ r_validRows r = Some vs
    ∧ r_invalidRows r = Some bs
    ∧ ok = List.length vs
    ∧ failed = List.length bs.

End Notions.

(** * Properties *)

Import Uploader.

(** ** The row validator *)

Lemma numericColumns_eq :
  Spec.numericColumns =
  map JS.str ["Prev Close"; "Open"; "High"; "Low"; "Last"; "Close"; "VWAP";
              "Volume"; "Turnover"; "Trades"; "Deliverable Volume";
              "%Deliverble"]%string.
Proof. vm_compute. reflexivity. Qed.

Lemma foldl_flag {A} (p : A -> bool) (l : list A) (b : bool) :
  foldl (fun isValid field => if negb (p field) then false else isValid) b l
  = b && forallb p l.
Proof.
  revert b; induction l as [|x l IH]; intros b; simpl.
  - by rewrite andb_true_r.
  - rewrite IH. destruct (p x), b; simpl; try reflexivity.
Qed.

Lemma rowIsValid_spec (row : Row) :
  rowIsValid row = Spec.passesAllChecks row.
Proof.
  unfold rowIsValid, Spec.passesAllChecks.
  cbv zeta. rewrite foldl_flag, numericColumns_eq.
  destruct (Moment.isValid (row !! JS.str "Date")); reflexivity.
Qed.

(** ** The pipeline on a stream *)

Lemma run_app st e1 e2 :
  run st (e1 ++ e2) =
  let (st1, o1) := run st e1 in
  let (st2, o2) := run st1 e2 in (st2, o1 ++ o2).
Proof.
  revert st; induction e1 as [|e e1 IH]; intros st; simpl.
  - by destruct (run st e2).
  - destruct (handle st e) as [st1 o1]. rewrite IH.
    destruct (run st1 e1) as [st2 o2], (run st2 e2) as [st3 o3].
    by rewrite app_assoc.
Qed.

Lemma run_data st rows :
  run st (map EvData rows) = (Spec.accumulate st rows, []).
Proof.
  revert st; induction rows as [|r rows IH]; intros st; simpl.
  - unfold Spec.accumulate; simpl.
    rewrite !app_nil_r, !Nat.add_0_r. by destruct st.
  - unfold onData. destruct (rowIsValid r) eqn:E; rewrite IH; simpl; f_equal;
      unfold Spec.accumulate; simpl.
    + rewrite filter_cons_True by (by apply Is_true_true).
      rewrite filter_cons_False by (intros H; apply H, Is_true_true, E).
      simpl. rewrite <- app_assoc. simpl. f_equal. lia.
    + rewrite filter_cons_False by (by apply Is_true_false).
      rewrite filter_cons_True by (by apply Is_true_false).
      simpl. rewrite <- app_assoc. simpl. f_equal. lia.
Qed.

Lemma elem_of_headersSet (hs : list (list N)) (s0 : gset (list N)) x :
  x ∈ foldl (fun set header => set ∪ {[JS.trim header]}) s0 hs
  ↔ x ∈ s0 ∨ x ∈ JS.trim <$> hs.
Proof.
  revert s0; induction hs as [|h hs IH]; intros s0; simpl.
  - rewrite elem_of_nil. tauto.
  - rewrite IH, elem_of_union, elem_of_singleton, elem_of_cons. tauto.
Qed.

Lemma elem_of_missingFrom (hs : gset (list N)) col :
  col ∈ missingFrom hs ↔ col ∈ requiredColumns ∧ col ∉ hs.
Proof. unfold missingFrom. rewrite list_elem_of_filter. tauto. Qed.

Lemma headerCompleteb_spec headers :
  Spec.headerCompleteb headers = true ↔ Spec.headerComplete headers.
Proof.
  unfold Spec.headerCompleteb, Spec.headerComplete.
  rewrite forallb_forall. split; intros H col Hin.
  - apply list_elem_of_In, H in Hin. by apply bool_decide_eq_true in Hin.
  - apply bool_decide_eq_true, H, list_elem_of_In, Hin.
Qed.

Lemma onHeaders_accepts st headers :
  Spec.headerComplete headers →
  snd (onHeaders st headers) = [].
Proof.
  intros Hc. unfold onHeaders.
  set (hs := foldl _ _ _).
  assert (missingFrom hs = []) as ->.
  { apply elem_of_nil_inv. intros col [Hr Hn]%elem_of_missingFrom.
    apply Hn, elem_of_headersSet. right. by apply Hc. }
  reflexivity.
Qed.

Lemma onHeaders_state st headers :
  validRows (fst (onHeaders st headers)) = validRows st
  ∧ invalidRows (fst (onHeaders st headers)) = invalidRows st
  ∧ successfulRecords (fst (onHeaders st headers)) = successfulRecords st
  ∧ failedRecords (fst (onHeaders st headers)) = failedRecords st.
Proof. unfold onHeaders. by destruct (_ <? _)%nat. Qed.

Lemma validate_complete headers rows :
  validateCSVContent (EvHeaders headers :: map EvData rows ++ [EvEnd])
  = snd (onHeaders initialState headers) ++ [Spec.summaryOf rows].
Proof.
  unfold validateCSVContent. simpl.
  pose proof (onHeaders_state initialState headers) as (Hv & Hi & Hs & Hf).
  destruct (onHeaders initialState headers) as [st1 o1]. simpl in *.
  rewrite run_app, run_data. simpl. f_equal.
  unfold onEnd, Spec.accumulate, Spec.summaryOf; simpl.
  rewrite Hv, Hi, Hs, Hf. reflexivity.
Qed.

Lemma validate_accepted headers rows :
  Spec.headerComplete headers →
  validateCSVContent (EvHeaders headers :: map EvData rows ++ [EvEnd])
  = [Spec.summaryOf rows].
Proof.
  intros Hc. by rewrite validate_complete, onHeaders_accepts.
Qed.

Lemma filter_lengths {A} (P : A → Prop) `{∀ x, Decision (P x)} (l : list A) :
  (List.length (filter P l) + List.length (filter (fun x => ¬ P x) l)
   = List.length l)%nat.
Proof.
  induction l as [|x l IH]; [done|].
  destruct (decide (P x)).
  - rewrite filter_cons_True, filter_cons_False by tauto. simpl. lia.
  - rewrite filter_cons_False, filter_cons_True by tauto. simpl. lia.
Qed.

(** ** Merging tagged rows *)

Section Merge.
Context {A : Type}.
Implicit Types xs ys l : list (nat * A).

Lemma mergeByIndex_nil_r xs : Spec.mergeByIndex xs [] = xs.
Proof. by destruct xs. Qed.

Lemma mergeByIndex_cons x xs y ys :
  Spec.mergeByIndex (x :: xs) (y :: ys) =
  if (x.1 <=? y.1)%nat then x :: Spec.mergeByIndex xs (y :: ys)
  else y :: Spec.mergeByIndex (x :: xs) ys.
Proof. reflexivity. Qed.

Lemma mergeByIndex_partition (P : nat * A → Prop)
    `{∀ x, Decision (P x)} l :
  StronglySorted (fun x y : nat * A => (x.1 < y.1)%nat) l →
  Spec.mergeByIndex (filter P l) (filter (fun x => ¬ P x) l) = l.
Proof.
  induction 1 as [|x l Hs IH Hx]; [done|].
  rewrite Forall_forall in Hx.
  destruct (decide (P x)).
  - rewrite filter_cons_True, filter_cons_False by tauto.
    destruct (filter (λ x0, ¬ P x0) l) as [|y ys] eqn:E.
    + rewrite mergeByIndex_nil_r in *. by rewrite IH.
    + rewrite mergeByIndex_cons.
      assert (x.1 < y.1)%nat as Hlt.
      { apply Hx, (list_elem_of_filter (λ x0, ¬ P x0) l).
        rewrite E. left. }
      destruct (Nat.leb_spec x.1 y.1); [|lia]. by rewrite IH.
  - rewrite filter_cons_False, filter_cons_True by tauto.
    destruct (filter P l) as [|y ys] eqn:E.
    + simpl in *. by rewrite IH.
    + rewrite mergeByIndex_cons.
      assert (x.1 < y.1)%nat as Hlt.
      { apply Hx, (list_elem_of_filter P l). rewrite E. left. }
      destruct (Nat.leb_spec y.1 x.1); [lia|]. by rewrite IH.
Qed.

Lemma imap_ascending (rows : list A) k :
  StronglySorted (fun x y : nat * A => (x.1 < y.1)%nat)
                 (imap (fun i => pair (k + i)%nat) rows).
Proof.
  revert k; induction rows as [|r rows IH]; intros k; simpl.
  - constructor.
  - constructor.
    + rewrite (imap_ext _ (fun i => pair (S k + i)%nat)); [apply IH|].
      intros; simpl; f_equal; lia.
    + apply Forall_forall. intros [j y] Hin.
      apply elem_of_lookup_imap in Hin as (i & z & Heq & _).
      simpl in Heq. injection Heq as -> ->. simpl. lia.
Qed.

Lemma indexed_ascending (rows : list A) :
  StronglySorted (fun x y : nat * A => (x.1 < y.1)%nat)
                 (Spec.indexed rows).
Proof. apply (imap_ascending rows 0). Qed.

Lemma indexed_snd (rows : list A) : (Spec.indexed rows).*2 = rows.
Proof.
  unfold Spec.indexed. rewrite fmap_imap.
  rewrite (imap_ext _ (fun _ x => x)) by done.
  induction rows; simpl; [done|]. f_equal.
  rewrite <- IHrows at 2. by apply imap_ext.
Qed.

Lemma filter_snd (P : A → Prop) `{∀ x, Decision (P x)} l :
  (filter (fun x : nat * A => P x.2) l).*2 = filter P l.*2.
Proof.
  induction l as [|[i a] l IH]; [done|]. rewrite fmap_cons.
  destruct (decide (P a)).
  - rewrite !filter_cons_True by done. rewrite fmap_cons. by rewrite IH.
  - rewrite !filter_cons_False by done. done.
Qed.
End Merge.

(** ** Summary, classification and order *)

Lemma sample_header_complete : Spec.headerComplete Samples.header.
Proof. apply headerCompleteb_spec. vm_compute. reflexivity. Qed.

(** C3. When the header has every required column and the stream is read
    to its end, [cb] is called once, with a summary whose [success] is
    true, whose total is the sum of the two counters and the number of
    data rows, and whose counters are the lengths of [validRows] and of
    [invalidRows]. *)
Theorem C3_summary_counts (headers : list (list N)) (rows : list Row) :
  Spec.headerComplete headers →
  ∃ s total ok failed vs bs,
    validateCSVContent (EvHeaders headers :: map EvData rows ++ [EvEnd]) = [s]
    ∧ success s = true
    ∧ totalRecords s = Some total
    ∧ r_successfulRecords s = Some ok
    ∧ r_failedRecords s = Some failed
    ∧ r_validRows s = Some vs
    ∧ r_invalidRows s = Some bs
    ∧ total = (ok + failed)%nat
    ∧ total = List.length rows
    ∧ ok = List.length vs
    ∧ failed = List.length bs.
Proof.
  intros Hc. rewrite (validate_accepted _ _ Hc).
  eexists _, _, _, _, _, _. split; [reflexivity|].
  repeat split; try reflexivity.
  apply filter_lengths.
Qed.

Lemma C3_summary_counts_witness :
  Spec.headerComplete Samples.header ∧
  ∃ s total ok failed vs bs,
    validateCSVContent
      (EvHeaders Samples.header
       :: map EvData [Samples.goodRow; Samples.badDateRow] ++ [EvEnd]) = [s]
    ∧ success s = true
    ∧ totalRecords s = Some total
    ∧ r_successfulRecords s = Some ok
    ∧ r_failedRecords s = Some failed
    ∧ r_validRows s = Some vs
    ∧ r_invalidRows s = Some bs
    ∧ total = (ok + failed)%nat
    ∧ total = List.length [Samples.goodRow; Samples.badDateRow]
    ∧ ok = List.length vs
    ∧ failed = List.length bs.
Proof.
  split; [apply sample_header_complete|].
  apply (C3_summary_counts Samples.header
           [Samples.goodRow; Samples.badDateRow]).
  apply sample_header_complete.
Defined.

(** C4. A data row goes to [validRows] exactly when its Date passes the
    date check and every numeric column passes the numeric check, and to
    [invalidRows] otherwise; the handler calls [cb] for no row, so the
    rows after a failing one are classified too; of the rows of a stream
    read to its end, each is in one of the two sequences, none in both,
    none lost. *)
Theorem C4_row_classification (headers : list (list N)) (rows : list Row) :
  Spec.headerComplete headers →
  (∀ st row,
     onData st row =
     (if Spec.passesAllChecks row
      then {| headersSet := headersSet st;
              validRows := validRows st ++ [row];
              invalidRows := invalidRows st;
              successfulRecords := S (successfulRecords st);
              failedRecords := failedRecords st |}
      else {| headersSet := headersSet st;
              validRows := validRows st;
              invalidRows := invalidRows st ++ [row];
              successfulRecords := successfulRecords st;
              failedRecords := S (failedRecords st) |}, []))
  ∧ ∃ s vs bs,
      validateCSVContent (EvHeaders headers :: map EvData rows ++ [EvEnd])
      = [s]
      ∧ r_validRows s = Some vs ∧ r_invalidRows s = Some bs
      ∧ (∀ row, row ∈ vs ↔ row ∈ rows ∧ Spec.passesAllChecks row = true)
      ∧ (∀ row, row ∈ bs ↔ row ∈ rows ∧ Spec.passesAllChecks row = false)
      ∧ (∀ row, ¬ (row ∈ vs ∧ row ∈ bs))
      ∧ (List.length vs + List.length bs = List.length rows)%nat.
Proof.
  intros Hc. split.
  - intros st row. unfold onData. rewrite rowIsValid_spec.
    by destruct (Spec.passesAllChecks row).
  - rewrite (validate_accepted _ _ Hc).
    eexists _, _, _. split; [reflexivity|].
    split; [reflexivity|]. split; [reflexivity|].
    assert (∀ row, row ∈ filter (λ r : Row, rowIsValid r) rows
                   ↔ row ∈ rows ∧ Spec.passesAllChecks row = true) as Hv.
    { intros row. rewrite list_elem_of_filter, Is_true_true, rowIsValid_spec.
      tauto. }
    assert (∀ row, row ∈ filter (λ r : Row, ¬ rowIsValid r) rows
                   ↔ row ∈ rows ∧ Spec.passesAllChecks row = false) as Hb.
    { intros row. rewrite list_elem_of_filter, Is_true_false, rowIsValid_spec.
      tauto. }
    split; [exact Hv|]. split; [exact Hb|].
    split; [|apply filter_lengths].
    intros r [H1%Hv H2%Hb]. destruct H1, H2. congruence.
Qed.

Lemma C4_row_classification_witness :
  Spec.headerComplete Samples.header ∧
  ∃ s vs bs,
    validateCSVContent
      (EvHeaders Samples.header
       :: map EvData [Samples.badDateRow; Samples.goodRow] ++ [EvEnd]) = [s]
    ∧ r_validRows s = Some vs ∧ r_invalidRows s = Some bs
    ∧ (∀ row, row ∈ vs ↔ row ∈ [Samples.badDateRow; Samples.goodRow]
                         ∧ Spec.passesAllChecks row = true)
    ∧ (∀ row, row ∈ bs ↔ row ∈ [Samples.badDateRow; Samples.goodRow]
                         ∧ Spec.passesAllChecks row = false)
    ∧ (∀ row, ¬ (row ∈ vs ∧ row ∈ bs))
    ∧ (List.length vs + List.length bs
       = List.length [Samples.badDateRow; Samples.goodRow])%nat.
Proof.
  split; [apply sample_header_complete|].
  apply (C4_row_classification Samples.header
           [Samples.badDateRow; Samples.goodRow]).
  apply sample_header_complete.
Defined.

(** C5. With an accepted header, [validRows] and [invalidRows] are the
    rows that pass and the rows that fail, each in input order; tagging
    every row with its position in the input, the merge by position of
    the two tagged sequences is the tagged input. *)
Theorem C5_stable_partition (headers : list (list N)) (rows : list Row) :
  Spec.headerComplete headers →
  ∃ s vs bs tv tb,
    validateCSVContent (EvHeaders headers :: map EvData rows ++ [EvEnd]) = [s]
    ∧ r_validRows s = Some vs ∧ r_invalidRows s = Some bs
    ∧ vs `sublist_of` rows ∧ bs `sublist_of` rows
    ∧ tv `sublist_of` Spec.indexed rows ∧ tb `sublist_of` Spec.indexed rows
    ∧ tv.*2 = vs ∧ tb.*2 = bs
    ∧ Spec.mergeByIndex tv tb = Spec.indexed rows
    ∧ (Spec.mergeByIndex tv tb).*2 = rows.
Proof.
  intros Hc. rewrite (validate_accepted _ _ Hc).
  exists (Spec.summaryOf rows), (filter (λ r : Row, rowIsValid r) rows),
    (filter (λ r : Row, ¬ rowIsValid r) rows),
    (filter (λ x : nat * Row, rowIsValid x.2) (Spec.indexed rows)),
    (filter (λ x : nat * Row, ¬ rowIsValid x.2) (Spec.indexed rows)).
  assert (Spec.mergeByIndex
            (filter (λ x : nat * Row, rowIsValid x.2) (Spec.indexed rows))
            (filter (λ x : nat * Row, ¬ rowIsValid x.2) (Spec.indexed rows))
          = Spec.indexed rows) as Hm.
  { apply (mergeByIndex_partition (λ x : nat * Row, rowIsValid x.2)).
    apply indexed_ascending. }
  split; [reflexivity|]. split; [reflexivity|]. split; [reflexivity|].
  split; [apply sublist_filter|]. split; [apply sublist_filter|].
  split; [apply sublist_filter|]. split; [apply sublist_filter|].
  split.
  { etrans; [exact (filter_snd (λ r : Row, rowIsValid r) _)|].
    by rewrite indexed_snd. }
  split.
  { etrans; [exact (filter_snd (λ r : Row, ¬ rowIsValid r) _)|].
    by rewrite indexed_snd. }
  split; [exact Hm|]. by rewrite Hm, indexed_snd.
Qed.

Lemma C5_stable_partition_witness :
  Spec.headerComplete Samples.header ∧
  ∃ s vs bs tv tb,
    validateCSVContent
      (EvHeaders Samples.header
       :: map EvData [Samples.badDateRow; Samples.goodRow; Samples.shortRow]
       ++ [EvEnd]) = [s]
    ∧ r_validRows s = Some vs ∧ r_invalidRows s = Some bs
    ∧ vs `sublist_of` [Samples.badDateRow; Samples.goodRow; Samples.shortRow]
    ∧ bs `sublist_of` [Samples.badDateRow; Samples.goodRow; Samples.shortRow]
    ∧ tv `sublist_of`
        Spec.indexed [Samples.badDateRow; Samples.goodRow; Samples.shortRow]
    ∧ tb `sublist_of`
        Spec.indexed [Samples.badDateRow; Samples.goodRow; Samples.shortRow]
    ∧ tv.*2 = vs ∧ tb.*2 = bs
    ∧ Spec.mergeByIndex tv tb
      = Spec.indexed [Samples.badDateRow; Samples.goodRow; Samples.shortRow]
    ∧ (Spec.mergeByIndex tv tb).*2
      = [Samples.badDateRow; Samples.goodRow; Samples.shortRow].
Proof.
  split; [apply sample_header_complete|].
  apply (C5_stable_partition Samples.header
           [Samples.badDateRow; Samples.goodRow; Samples.shortRow]).
  apply sample_header_complete.
Defined.

(** ** The date check *)

Section MomentLemmas.
Import Moment Aux.

Lemma stripPrefix_Some p s r :
  JS.stripPrefix p s = Some r ↔ s = p ++ r.
Proof.
  revert s; induction p as [|a p IH]; intros s; simpl.
  - split; [by intros [= ->]|by intros ->].
  - destruct s as [|b s]; [split; [done|intros [=]]|].
    destruct (N.eqb_spec a b) as [->|Hne].
    + rewrite IH. split; [by intros ->|by intros [= ->]].
    + split; [done|intros [= -> _]; congruence].
Qed.

Lemma stripPrefix_app p r : JS.stripPrefix p (p ++ r) = Some r.
Proof. by apply stripPrefix_Some. Qed.

Lemma digitsHere_Some n s m :
  digitsHere n s = Some m ↔
  m = take n s ∧ length m = n ∧ forallb JS.isDigit m = true.
Proof.
  unfold digitsHere.
  destruct (Nat.eqb_spec (length (take n s)) n) as [E|E]; simpl.
  - destruct (forallb JS.isDigit (take n s)) eqn:F.
    + split; [intros [= <-]; done|intros (-> & _ & _); done].
    + split; [done|intros (-> & _ & F'); congruence].
  - split; [done|intros (-> & E' & _); done].
Qed.

Lemma digitsHere_prefix n s m :
  digitsHere (S n) s = Some m → ∃ r, s = m ++ r ∧ m ≠ [].
Proof.
  intros (-> & Hl & _)%digitsHere_Some.
  exists (drop (S n) s). split; [by rewrite take_drop|].
  intros E; rewrite E in Hl; done.
Qed.

Lemma digitsHere_self n s m :
  digitsHere n s = Some m → ∀ r, digitsHere n (m ++ r) = Some m.
Proof.
  intros (-> & Hl & Hd)%digitsHere_Some r. apply digitsHere_Some.
  split; [|done]. by rewrite take_app_length'.
Qed.

(** A text matched by a token matches it on its own, and at the head of
    any text it begins. *)
Lemma matchHere_prefix t s m :
  matchHere t s = Some m → ∃ r, s = m ++ r ∧ m ≠ [].
Proof.
  destruct t; simpl; try apply digitsHere_prefix.
  destruct s as [|x s]; [done|].
  destruct (N.eqb_spec x c); [|done]. intros [= <-]. by exists s.
Qed.

Lemma matchHere_self t s m :
  matchHere t s = Some m → ∀ r, matchHere t (m ++ r) = Some m.
Proof.
  destruct t; simpl; try apply digitsHere_self.
  destruct s as [|x s]; [done|].
  destruct (N.eqb_spec x c) as [->|]; [|done]. intros [= <-] r. simpl.
  by rewrite N.eqb_refl.
Qed.

Lemma regexMatch_occurs t s m :
  regexMatch t s = Some m →
  ∃ pre r, s = pre ++ m ++ r ∧ matchHere t (m ++ r) = Some m.
Proof.
  induction s as [|x s IH]; simpl.
  - destruct (matchHere t []) eqn:E; [|done]. intros [= ->].
    destruct (matchHere_prefix _ _ _ E) as (r & Hr & _).
    exists [], r. by rewrite <- Hr.
  - destruct (matchHere t (x :: s)) eqn:E.
    + intros [= ->]. destruct (matchHere_prefix _ _ _ E) as (r & Hr & _).
      exists [], r. simpl. by rewrite <- Hr.
    + intros (pre & r & -> & H)%IH. by exists (x :: pre), r.
Qed.

Lemma indexOf_ge m s : (-1 ≤ indexOf m s)%Z.
Proof.
  induction s as [|x s IH]; simpl; destruct (JS.stripPrefix m _); try lia.
  destruct (Z.ltb_spec (indexOf m s) 0); lia.
Qed.

Lemma indexOf_here m s r : JS.stripPrefix m s = Some r → indexOf m s = 0%Z.
Proof. destruct s; simpl; by intros ->. Qed.

Lemma indexOf_occurs m pre r : (0 ≤ indexOf m (pre ++ m ++ r))%Z.
Proof.
  induction pre as [|x pre IH]; simpl.
  - by rewrite (indexOf_here _ _ r) by apply stripPrefix_app.
  - destruct (JS.stripPrefix m _); [done|].
    destruct (Z.ltb_spec (indexOf m (pre ++ m ++ r)) 0); lia.
Qed.

Lemma indexOf_spec m s i :
  indexOf m s = i → (0 ≤ i)%Z →
  ∃ r, drop (Z.to_nat i) s = m ++ r.
Proof.
  revert i; induction s as [|x s IH]; intros i; simpl.
  - destruct (JS.stripPrefix m []) eqn:E; [|lia].
    intros <- _. apply stripPrefix_Some in E. by exists l.
  - destruct (JS.stripPrefix m (x :: s)) eqn:E.
    + intros <- _. apply stripPrefix_Some in E. by exists l.
    + destruct (Z.ltb_spec (indexOf m s) 0); [lia|].
      intros <- _. destruct (IH _ eq_refl H) as [r Hr].
      exists r. replace (Z.to_nat (indexOf m s + 1)) with (S (Z.to_nat (indexOf m s))) by lia.
      done.
Qed.

Lemma indexOf_zero m s : indexOf m s = 0%Z → ∃ r, s = m ++ r.
Proof.
  intros H. destruct (indexOf_spec _ _ _ H) as [r Hr]; [done|]. by exists r.
Qed.

Lemma regexMatch_here t s m :
  matchHere t s = Some m → regexMatch t s = Some m.
Proof. intros H. destruct s; simpl; by rewrite H. Qed.

Lemma parseToken_here c t m r :
  string_ c = m ++ r → matchHere t (m ++ r) = Some m →
  parseToken c t = matched c t m r.
Proof.
  intros Hs Hm. unfold parseToken, matched. rewrite Hs.
  rewrite (regexMatch_here _ _ _ Hm).
  rewrite (indexOf_here _ _ r) by apply stripPrefix_app.
  rewrite Z.add_0_l, Nat2Z.id, drop_app_length. reflexivity.
Qed.

Lemma addTime_fields t m c :
  string_ (addTimeToArrayFromToken t m c) = string_ c
  ∧ unusedTokens (addTimeToArrayFromToken t m c) = unusedTokens c
  ∧ totalParsedInputLength (addTimeToArrayFromToken t m c)
    = totalParsedInputLength c.
Proof. by destruct t. Qed.

Lemma measure_matched c t m r :
  string_ c = m ++ r → measure (matched c t m r) = measure c.
Proof.
  intros Hs. unfold measure, matched.
  destruct (addTime_fields t m
    {| string_ := r;
       a_YEAR := a_YEAR c; a_MONTH := a_MONTH c; a_DATE := a_DATE c;
       empty := if isFormatToken t then false else empty c;
       unusedTokens := unusedTokens c;
       unusedInput := unusedInput c;
       totalParsedInputLength :=
         (totalParsedInputLength c + List.length m)%nat |}) as (-> & _ & ->).
  simpl. rewrite Hs, length_app. lia.
Qed.

(** A token either matches at the head of the input, or is left unused,
    or matches further on, and then the skipped text is lost to the
    count of parsed characters. *)
Lemma parseToken_cases c t :
  (∃ m r, string_ c = m ++ r ∧ matchHere t (m ++ r) = Some m)
  ∨ (unusedTokens (parseToken c t) ≠ []
     ∧ measure (parseToken c t) = measure c)
  ∨ (measure (parseToken c t) < measure c)%nat.
Proof.
  destruct (matchHere t (string_ c)) as [m|] eqn:Hh.
  { left. destruct (matchHere_prefix _ _ _ Hh) as (r & Hr & _).
    exists m, r. by rewrite <- Hr. }
  right. unfold parseToken.
  destruct (regexMatch t (string_ c)) as [m|] eqn:Hm; simpl.
  2:{ left. split; [by destruct (unusedTokens c)|done]. }
  right.
  destruct (regexMatch_occurs _ _ _ Hm) as (pre & r & Hs & Hmr).
  destruct (matchHere_prefix _ _ _ Hmr) as (_ & _ & Hne).
  pose proof (indexOf_occurs m pre r) as Hi. rewrite <- Hs in Hi.
  destruct (indexOf_spec m (string_ c) _ eq_refl Hi) as [r' Hr'].
  assert (indexOf m (string_ c) ≠ 0%Z) as Hnz.
  { intros H0. destruct (indexOf_zero _ _ H0) as [r0 Hr0].
    rewrite Hr0, (matchHere_self _ _ _ Hmr) in Hh. done. }
  unfold measure.
  match goal with |- context [addTimeToArrayFromToken t m ?c1] =>
    destruct (addTime_fields t m c1) as (-> & _ & ->) end.
  simpl.
  set (i := indexOf m (string_ c)) in *.
  assert (Z.to_nat (i + Z.of_nat (List.length m))
          = (Z.to_nat i + List.length m)%nat) as -> by lia.
  rewrite <- drop_drop, Hr', drop_app_length.
  assert (List.length (drop (Z.to_nat i) (string_ c))
          = (List.length m + List.length r')%nat) as Hl
    by (by rewrite Hr', length_app).
  rewrite length_drop in Hl.
  assert (0 < List.length m)%nat by (destruct m; simpl; [done|lia]).
  subst i. lia.
Qed.

Lemma parseToken_measure c t : (measure (parseToken c t) ≤ measure c)%nat.
Proof.
  destruct (parseToken_cases c t) as [(m & r & Hs & Hm)|[[_ ->]|Hlt]]; [|lia..].
  rewrite (parseToken_here _ _ _ _ Hs Hm), (measure_matched _ _ _ _ Hs). lia.
Qed.

Lemma parseToken_unused c t :
  unusedTokens c ≠ [] → unusedTokens (parseToken c t) ≠ [].
Proof.
  intros Hu. unfold parseToken.
  destruct (regexMatch t (string_ c)) as [m|]; simpl.
  - match goal with |- context [addTimeToArrayFromToken t m ?c1] =>
      destruct (addTime_fields t m c1) as (_ & -> & _) end. done.
  - by destruct (unusedTokens c).
Qed.

Lemma fold_measure ts c :
  (measure (fold_left parseToken ts c) ≤ measure c)%nat.
Proof.
  revert c; induction ts as [|t ts IH]; intros c; simpl; [lia|].
  etrans; [apply IH|apply parseToken_measure].
Qed.

Lemma fold_unused ts c :
  unusedTokens c ≠ [] → unusedTokens (fold_left parseToken ts c) ≠ [].
Proof.
  revert c; induction ts as [|t ts IH]; intros c; simpl; [done|].
  intros H. by apply IH, parseToken_unused.
Qed.

(** When the tokens [t :: ts] leave no token unused and no character
    unparsed, [t] matches at the head of the input. *)
Lemma step_valid t ts c :
  unusedTokens (fold_left parseToken (t :: ts) c) = [] →
  (measure c ≤ measure (fold_left parseToken (t :: ts) c))%nat →
  ∃ m r, string_ c = m ++ r ∧ matchHere t (m ++ r) = Some m
         ∧ fold_left parseToken (t :: ts) c
           = fold_left parseToken ts (matched c t m r)
         ∧ measure (matched c t m r) = measure c.
Proof.
  simpl. intros Hu Hm.
  destruct (parseToken_cases c t) as [(m & r & Hs & Hh)|[[Hn _]|Hlt]].
  - exists m, r. rewrite (parseToken_here _ _ _ _ Hs Hh).
    by rewrite (measure_matched _ _ _ _ Hs).
  - by apply (fold_unused ts) in Hn.
  - pose proof (fold_measure ts (parseToken c t)). lia.
Qed.

Lemma isDigit_range c : JS.isDigit c = true ↔ 48 ≤ c ≤ 57.
Proof.
  unfold JS.isDigit. rewrite andb_true_iff, !N.leb_le. tauto.
Qed.

Lemma forallb_isDigit ds : forallb JS.isDigit ds = true ↔ Spec.isDigits ds.
Proof.
  unfold Spec.isDigits. rewrite forallb_forall, Forall_forall.
  split; intros H c Hc.
  - apply isDigit_range, H, list_elem_of_In, Hc.
  - apply isDigit_range, H, list_elem_of_In, Hc.
Qed.

Lemma digitOf_decimal c : 48 ≤ c ≤ 57 → JS.digitOf 10 c = Some (Z.of_N c - 48)%Z.
Proof.
  intros H. unfold JS.digitOf.
  destruct (N.leb_spec 48 c); [|lia]. destruct (N.leb_spec c 57); [|lia].
  simpl. destruct (Z.ltb_spec (Z.of_N c - 48) 10); [done|lia].
Qed.

Lemma digitsValue_fold ds acc :
  Spec.isDigits ds →
  fold_left (fun a c => (a * 10 + default 0 (JS.digitOf 10 c))%Z) ds acc
  = (acc * 10 ^ Z.of_nat (List.length ds) + Spec.decimalValue ds)%Z.
Proof.
  revert acc; induction ds as [|d ds IH]; intros acc Hd; simpl.
  - lia.
  - apply Forall_cons in Hd as [Hd Hds]. rewrite IH by done.
    rewrite digitOf_decimal by done. simpl.
    replace (Z.of_nat (S (List.length ds)))
      with (Z.succ (Z.of_nat (List.length ds))) by lia.
    rewrite Z.pow_succ_r by lia. lia.
Qed.

Lemma digitsValue_decimal ds :
  Spec.isDigits ds → JS.digitsValue 10 ds = Spec.decimalValue ds.
Proof.
  intros Hd. unfold JS.digitsValue. rewrite digitsValue_fold by done. lia.
Qed.

Lemma decimalValue_nonneg ds : Spec.isDigits ds → (0 ≤ Spec.decimalValue ds)%Z.
Proof.
  induction 1 as [|d ds Hd _ IH]; simpl; [lia|].
  assert (0 ≤ 10 ^ Z.of_nat (List.length ds))%Z by (apply Z.pow_nonneg; lia).
  nia.
Qed.

Lemma isLeapYear_spec y : (0 ≤ y)%Z → isLeapYear y = true ↔ Spec.leapYear y.
Proof.
  intros Hy. unfold isLeapYear, Spec.leapYear.
  rewrite !Z.rem_mod_nonneg by lia.
  rewrite orb_true_iff, andb_true_iff, negb_true_iff, !Z.eqb_eq, Z.eqb_neq.
  tauto.
Qed.

Lemma daysInMonth_spec y m n :
  (0 ≤ y)%Z → (0 ≤ m ≤ 11)%Z →
  Spec.daysOfMonth y (m + 1) n ↔ n = daysInMonth y m.
Proof.
  intros Hy Hm. unfold Spec.daysOfMonth, daysInMonth.
  rewrite (Z.mod_small m 12) by lia.
  rewrite Z.sub_diag, Z.add_0_r.
  pose proof (isLeapYear_spec y Hy) as Hl.
  assert (m = 0 ∨ m = 1 ∨ m = 2 ∨ m = 3 ∨ m = 4 ∨ m = 5 ∨ m = 6 ∨ m = 7
          ∨ m = 8 ∨ m = 9 ∨ m = 10 ∨ m = 11)%Z as Hc by lia.
  destruct (isLeapYear y);
    [assert (Spec.leapYear y) by by apply Hl
    |assert (¬ Spec.leapYear y) by (intros ?%Hl; done)];
    repeat (destruct Hc as [->|Hc]); try subst m; simpl; intuition lia.
Qed.

Lemma checkOverflow_ok y m d :
  (checkOverflow y m d <? 0)%Z = true ↔
  (0 ≤ m ≤ 11 ∧ 1 ≤ d ≤ daysInMonth y m)%Z.
Proof.
  unfold checkOverflow.
  destruct (Z.ltb_spec m 0), (Z.ltb_spec 11 m), (Z.ltb_spec d 1),
    (Z.ltb_spec (daysInMonth y m) d); simpl; split; (done || lia).
Qed.

Lemma matchHere_digits n m r :
  digitsHere n (m ++ r) = Some m →
  List.length m = n ∧ Spec.isDigits m.
Proof.
  intros (_ & Hl & Hd)%digitsHere_Some. split; [done|].
  by apply forallb_isDigit.
Qed.

Lemma digitsHere_intro n m r :
  List.length m = n → Spec.isDigits m → digitsHere n (m ++ r) = Some m.
Proof.
  intros Hl Hd. apply digitsHere_Some.
  rewrite <- Hl, take_app_length. split; [done|]. split; [done|].
  by apply forallb_isDigit.
Qed.

Lemma matchHere_literal c m r :
  matchHere (Literal c) (m ++ r) = Some m → m = [c].
Proof.
  intros H. destruct (matchHere_prefix _ _ _ H) as (r' & Hr & Hne).
  simpl in H. destruct (m ++ r) as [|x l]; [done|].
  destruct (N.eqb_spec x c) as [->|]; [|done]. by injection H as <-.
Qed.

Lemma isValid_calendarDate s :
  Moment.isValid (Some s) = true ↔ Spec.calendarDate s.
Proof.
  unfold Moment.isValid. simpl JS.ToString. split.
  - intros Hv.
    destruct (unusedTokens (fold_left parseToken formatTokens (initialConfig s)))
      eqn:Hu; [|done].
    destruct (a_YEAR _) as [y|] eqn:Hy; [|done].
    destruct (a_MONTH _) as [mo|] eqn:Hmo; [|done].
    destruct (a_DATE _) as [d|] eqn:Hd; [|done].
    apply andb_true_iff in Hv as [[Ho He]%andb_true_iff Hc].
    apply Z.eqb_eq in Hc.
    assert (measure (initialConfig s)
            ≤ measure (fold_left parseToken formatTokens (initialConfig s)))%nat
      as Hm.
    { unfold measure.
      change (string_ (initialConfig s)) with s.
      change (totalParsedInputLength (initialConfig s)) with 0%nat. lia. }
    unfold formatTokens in *.
    destruct (step_valid _ _ _ Hu Hm) as (m1 & r1 & Hs1 & Hh1 & Hf1 & Hme1).
    rewrite Hf1 in Hu, Hy, Hmo, Hd, He, Hc, Hm. rewrite <- Hme1 in Hm.
    destruct (step_valid _ _ _ Hu Hm) as (m2 & r2 & Hs2 & Hh2 & Hf2 & Hme2).
    rewrite Hf2 in Hu, Hy, Hmo, Hd, He, Hc, Hm. rewrite <- Hme2 in Hm.
    destruct (step_valid _ _ _ Hu Hm) as (m3 & r3 & Hs3 & Hh3 & Hf3 & Hme3).
    rewrite Hf3 in Hu, Hy, Hmo, Hd, He, Hc, Hm. rewrite <- Hme3 in Hm.
    destruct (step_valid _ _ _ Hu Hm) as (m4 & r4 & Hs4 & Hh4 & Hf4 & Hme4).
    rewrite Hf4 in Hu, Hy, Hmo, Hd, He, Hc, Hm. rewrite <- Hme4 in Hm.
    destruct (step_valid _ _ _ Hu Hm) as (m5 & r5 & Hs5 & Hh5 & Hf5 & Hme5).
    rewrite Hf5 in Hu, Hy, Hmo, Hd, He, Hc, Hm.
    simpl in Hs1, Hs2, Hs3, Hs4, Hs5, Hy, Hmo, Hd, Hc.
    injection Hy as <-. injection Hmo as <-. injection Hd as <-.
    apply matchHere_digits in Hh1 as [Hl1 Hd1].
    apply matchHere_literal in Hh2 as ->.
    apply matchHere_digits in Hh3 as [Hl3 Hd3].
    apply matchHere_literal in Hh4 as ->.
    apply matchHere_digits in Hh5 as [Hl5 Hd5].
    assert (r5 = []) as ->.
    { apply nil_length_inv.
      assert (List.length s
              = (List.length m1 + (1 + (List.length m3
                 + (1 + (List.length m5 + List.length r5)))))%nat) as Hl.
      { rewrite Hs1, Hs2, Hs3, Hs4, Hs5. rewrite !length_app. done. }
      simpl in Hc. lia. }
    unfold toInt in Ho. rewrite !digitsValue_decimal in Ho by done.
    apply checkOverflow_ok in Ho as [Hmr Hdr].
    exists m1, m3, m5,
      (daysInMonth (Spec.decimalValue m1) (Spec.decimalValue m3 - 1)).
    split; [by rewrite Hs1, Hs2, Hs3, Hs4, Hs5, app_nil_r|].
    do 6 (split; [done|]). split; [|done].
    replace (Spec.decimalValue m3) with (Spec.decimalValue m3 - 1 + 1)%Z at 1
      by lia.
    apply daysInMonth_spec; [by apply decimalValue_nonneg|done|done].
  - intros (yyyy & mm & dd & n & -> & Hl1 & Hl3 & Hl5 & Hd1 & Hd3 & Hd5
            & Hdm & Hdr).
    unfold formatTokens. simpl fold_left.
    set (c0 := initialConfig _).
    rewrite (parseToken_here c0 YYYY yyyy ([45] ++ mm ++ [45] ++ dd));
      [|reflexivity|by apply digitsHere_intro].
    set (c1 := matched c0 _ _ _).
    rewrite (parseToken_here c1 (Literal 45) [45] (mm ++ [45] ++ dd));
      [|reflexivity|reflexivity].
    set (c2 := matched c1 _ _ _).
    rewrite (parseToken_here c2 MM mm ([45] ++ dd));
      [|reflexivity|by apply digitsHere_intro].
    set (c3 := matched c2 _ _ _).
    rewrite (parseToken_here c3 (Literal 45) [45] dd);
      [|reflexivity|reflexivity].
    set (c4 := matched c3 _ _ _).
    rewrite (parseToken_here c4 DD dd []);
      [|simpl; by rewrite app_nil_r|by apply digitsHere_intro].
    subst c0 c1 c2 c3 c4.
    simpl. rewrite ?andb_true_r. apply andb_true_iff. split.
    2:{ apply Z.eqb_eq. repeat (rewrite ?length_app; simpl).
        rewrite ?Hl1, ?Hl3, ?Hl5. lia. }
    apply checkOverflow_ok.
    unfold toInt. rewrite !digitsValue_decimal by done.
    assert (1 ≤ Spec.decimalValue mm ≤ 12)%Z as Hmr.
    { unfold Spec.daysOfMonth in Hdm. lia. }
    split; [lia|].
    replace (Spec.decimalValue mm) with (Spec.decimalValue mm - 1 + 1)%Z in Hdm
      by lia.
    apply daysInMonth_spec in Hdm as <-;
      [done|by apply decimalValue_nonneg|lia].
Qed.

End MomentLemmas.

(** ** The numeric check *)

Section NumericLemmas.
Import Aux.

Lemma span_spec {A} (p : A → bool) s a b :
  JS.span p s = (a, b) → s = a ++ b ∧ forallb p a = true ∧ stops p b.
Proof.
  revert a b; induction s as [|c s IH]; intros a b; simpl.
  - by intros [= <- <-].
  - destruct (p c) eqn:E.
    + destruct (JS.span p s) as [a' b'] eqn:Es. intros [= <- <-].
      destruct (IH _ _ eq_refl) as (-> & Ha & Hb). simpl. by rewrite E, Ha.
    + intros [= <- <-]. by repeat split.
Qed.

Lemma span_app {A} (p : A → bool) a b :
  forallb p a = true → stops p b → JS.span p (a ++ b) = (a, b).
Proof.
  intros Ha Hb. induction a as [|c a IH]; simpl in *.
  - destruct b as [|c b]; [done|]. simpl in *. by rewrite Hb.
  - apply andb_true_iff in Ha as [-> Ha]. by rewrite IH.
Qed.

Lemma isDigits_app a b : Spec.isDigits (a ++ b) ↔ Spec.isDigits a ∧ Spec.isDigits b.
Proof. apply Forall_app. Qed.

(** Characters that are no digit. *)
Lemma not_digit c : (c < 48 ∨ 57 < c) → JS.isDigit c = false.
Proof.
  intros H. unfold JS.isDigit.
  destruct (N.leb_spec 48 c), (N.leb_spec c 57); simpl; try done; lia.
Qed.

Lemma scanSign_text sg neg r :
  Spec.signText sg neg → stops (fun c => (c =? 45) || (c =? 43)) r →
  JS.scanSign (sg ++ r) = (neg, r).
Proof.
  intros Hs Hr. destruct Hs; simpl; try done.
  destruct r as [|c r]; [done|]. unfold JS.scanSign. simpl in Hr.
  apply orb_false_iff in Hr as [-> ->]. done.
Qed.

Lemma scanSign_inv s neg r :
  JS.scanSign s = (neg, r) → ∃ sg, s = sg ++ r ∧ Spec.signText sg neg.
Proof.
  unfold JS.scanSign. destruct s as [|c s].
  - intros [= <- <-]. exists []. split; [done|constructor].
  - destruct (N.eqb_spec c 45) as [->|_].
    { intros [= <- <-]. exists [45]. split; [done|constructor]. }
    destruct (N.eqb_spec c 43) as [->|_].
    { intros [= <- <-]. exists [43]. split; [done|constructor]. }
    intros [= <- <-]. exists []. split; [done|constructor].
Qed.

Lemma digits_stop_sign ds :
  Spec.isDigits ds → ds ≠ [] →
  stops (fun c => (c =? 45) || (c =? 43)) ds.
Proof.
  intros Hd Hne. destruct ds as [|d ds]; [done|]. simpl.
  apply Forall_cons in Hd as [Hd _].
  destruct (N.eqb_spec d 45), (N.eqb_spec d 43); try done; lia.
Qed.

Lemma scanExponent_text ex e :
  Spec.exponentText ex e → JS.scanExponent ex = (e, []).
Proof.
  intros [|c sg neg ds Hc Hs Hne Hd]; [done|]. simpl.
  assert ((c =? 101) || (c =? 69) = true) as ->.
  { destruct Hc as [-> | ->]; done. }
  rewrite (scanSign_text _ _ _ Hs) by by apply digits_stop_sign.
  rewrite <- (app_nil_r ds) at 1.
  rewrite span_app; [|by apply forallb_isDigit|done].
  rewrite digitsValue_decimal by done.
  destruct ds; [done|]. done.
Qed.

Lemma scanExponent_inv s e :
  JS.scanExponent s = (e, []) → Spec.exponentText s e.
Proof.
  unfold JS.scanExponent. destruct s as [|c r].
  { intros [= <-]. constructor. }
  destruct ((c =? 101) || (c =? 69)) eqn:Hc; [|done].
  destruct (JS.scanSign r) as [neg r1] eqn:Hs.
  destruct (JS.span JS.isDigit r1) as [ds r2] eqn:Hsp.
  destruct ds as [|d ds]; [done|]. intros [= <- ->].
  apply scanSign_inv in Hs as (sg & -> & Hsg).
  apply span_spec in Hsp as (-> & Hd & _). rewrite app_nil_r.
  apply forallb_isDigit in Hd. rewrite digitsValue_decimal by done.
  constructor; try done.
  apply orb_true_iff in Hc as [->%N.eqb_eq | ->%N.eqb_eq]; tauto.
Qed.

(** What may follow the digits of a literal does not continue them. *)
Lemma exponent_stops_digit ex e :
  Spec.exponentText ex e → stops JS.isDigit ex.
Proof.
  intros [|c sg neg ds Hc _ _ _]; [done|]. simpl.
  apply not_digit. lia.
Qed.

Lemma exponent_no_dot ex e :
  Spec.exponentText ex e → JS.startsWithDot ex = false.
Proof.
  intros [|c sg neg ds Hc _ _ _]; [done|]. simpl.
  destruct (N.eqb_spec c 46); [lia|done].
Qed.

Lemma stripPrefix_Infinity_head c r :
  c ≠ 73 → JS.stripPrefix (JS.str "Infinity") (c :: r) = None.
Proof.
  intros H.
  change (JS.stripPrefix (JS.str "Infinity") (c :: r))
    with (if 73 =? c then JS.stripPrefix (JS.str "nfinity") r else None).
  destruct (N.eqb_spec 73 c); [congruence|done].
Qed.

(** A literal begins with a digit or with the point. *)
Lemma unsigned_head body m e :
  Spec.unsignedDecimalText body m e →
  ∃ c r, body = c :: r ∧ (48 ≤ c ≤ 57 ∨ c = 46).
Proof.
  intros [ip fp ex e' Hne Hd _ _|fp ex e' _ _ _|ip ex e' Hne Hd _].
  - destruct ip as [|c ip]; [done|]. apply Forall_cons in Hd as [Hc _].
    exists c, (ip ++ 46 :: fp ++ ex). by split; [|left].
  - exists 46, (fp ++ ex). by split; [|right].
  - destruct ip as [|c ip]; [done|]. apply Forall_cons in Hd as [Hc _].
    exists c, (ip ++ ex). by split; [|left].
Qed.

Lemma scanUnsignedDecimal_text neg body m e :
  Spec.unsignedDecimalText body m e →
  JS.scanUnsignedDecimal neg body = Some (JS.LitDecimal neg m e, []).
Proof.
  intros H. unfold JS.scanUnsignedDecimal.
  destruct (unsigned_head _ _ _ H) as (c & r & Hb & Hc).
  assert (JS.stripPrefix (JS.str "Infinity") body = None) as ->.
  { rewrite Hb. apply stripPrefix_Infinity_head. lia. }
  clear c r Hb Hc.
  destruct H as [ip fp ex e Hne Hdi Hdf Hex|fp ex e Hne Hdf Hex
                |ip ex e Hne Hdi Hex].
  - rewrite span_app; [|by apply forallb_isDigit|done].
    change (JS.startsWithDot (46 :: fp ++ ex)) with true.
    change (tail (46 :: fp ++ ex)) with (fp ++ ex). cbv beta iota.
    rewrite span_app;
      [|by apply forallb_isDigit|by apply (exponent_stops_digit _ e)].
    rewrite (scanExponent_text _ _ Hex).
    destruct (ip ++ fp) as [|d ds] eqn:Hds; [by destruct ip|].
    rewrite <- Hds, digitsValue_decimal by by apply isDigits_app.
    reflexivity.
  - change (JS.span JS.isDigit (46 :: fp ++ ex))
      with ([] : list N, 46 :: fp ++ ex).
    cbv beta iota.
    change (JS.startsWithDot (46 :: fp ++ ex)) with true.
    change (tail (46 :: fp ++ ex)) with (fp ++ ex). cbv beta iota.
    rewrite span_app;
      [|by apply forallb_isDigit|by apply (exponent_stops_digit _ e)].
    rewrite (scanExponent_text _ _ Hex).
    change ([] ++ fp) with fp.
    destruct fp as [|d ds] eqn:Hds; [done|].
    rewrite <- Hds in *. rewrite digitsValue_decimal by done.
    reflexivity.
  - rewrite span_app;
      [|by apply forallb_isDigit|by apply (exponent_stops_digit _ e)].
    rewrite (exponent_no_dot _ _ Hex), (scanExponent_text _ _ Hex).
    rewrite digitsValue_decimal by done.
    destruct ip; [done|]. reflexivity.
Qed.

Lemma scanUnsignedDecimal_inv neg body neg' m e :
  JS.scanUnsignedDecimal neg body = Some (JS.LitDecimal neg' m e, []) →
  neg' = neg ∧ Spec.unsignedDecimalText body m e.
Proof.
  unfold JS.scanUnsignedDecimal.
  destruct (JS.stripPrefix _ body); [done|].
  destruct (JS.span JS.isDigit body) as [ip r1] eqn:Hsp.
  apply span_spec in Hsp as (-> & Hdi%forallb_isDigit & _).
  destruct (JS.startsWithDot r1) eqn:Hdot.
  - destruct r1 as [|c r2]; [done|]. simpl in Hdot.
    apply N.eqb_eq in Hdot as ->. simpl.
    destruct (JS.span JS.isDigit r2) as [fp r3] eqn:Hsp.
    apply span_spec in Hsp as (-> & Hdf%forallb_isDigit & _).
    destruct (ip ++ fp) as [|d ds] eqn:Hds; [done|].
    destruct (JS.scanExponent r3) as [e' r4] eqn:Hex.
    intros [= <- <- <- ->]. split; [done|].
    apply scanExponent_inv in Hex. rewrite <- Hds.
    rewrite digitsValue_decimal by by apply isDigits_app.
    destruct ip as [|i ip].
    + simpl in *. apply Spec.decimal_fraction; try done. by rewrite Hds.
    + by apply Spec.decimal_point.
  - destruct ip as [|i ip]; [done|].
    destruct (JS.scanExponent r1) as [e' r4] eqn:Hex.
    intros [= <- <- <- ->]. split; [done|].
    apply scanExponent_inv in Hex.
    rewrite digitsValue_decimal by done.
    by apply Spec.decimal_integer.
Qed.

Lemma scanStrDecimalLiteral_text sg neg body m e :
  Spec.signText sg neg → Spec.unsignedDecimalText body m e →
  JS.scanStrDecimalLiteral (sg ++ body)
  = Some (JS.LitDecimal neg m e, []).
Proof.
  intros Hs Hb. unfold JS.scanStrDecimalLiteral.
  rewrite (scanSign_text _ _ _ Hs).
  - by apply scanUnsignedDecimal_text.
  - destruct (unsigned_head _ _ _ Hb) as (c & r & -> & Hc). simpl.
    destruct (N.eqb_spec c 45), (N.eqb_spec c 43); try done; lia.
Qed.

Lemma scanStrDecimalLiteral_inv t neg m e :
  JS.scanStrDecimalLiteral t = Some (JS.LitDecimal neg m e, []) →
  ∃ sg body, t = sg ++ body ∧ Spec.signText sg neg
             ∧ Spec.unsignedDecimalText body m e.
Proof.
  unfold JS.scanStrDecimalLiteral.
  destruct (JS.scanSign t) as [neg0 body] eqn:Hs.
  apply scanSign_inv in Hs as (sg & -> & Hsg).
  intros [-> Hb]%scanUnsignedDecimal_inv. by exists sg, body.
Qed.

Lemma roundsToFinite_spec m e :
  JS.roundsToFinite m e = true ↔ Spec.belowOverflow m e.
Proof.
  unfold JS.roundsToFinite, Spec.belowOverflow, JS.overflowBound.
  destruct (Z.leb_spec 0 e); rewrite Z.ltb_lt; lia.
Qed.

(** The text, as a whole, is a decimal literal with a finite value. *)
Lemma finiteDecimal_scan t :
  Spec.finiteDecimal t ↔
  ∃ l, JS.scanStrDecimalLiteral t = Some (l, [])
       ∧ JS.numberOfLiteral l = JS.Finite.
Proof.
  split.
  - intros (sg & neg & body & m & e & -> & Hs & Hb & Hf).
    exists (JS.LitDecimal neg m e). split.
    + by apply scanStrDecimalLiteral_text.
    + simpl. apply roundsToFinite_spec in Hf. by rewrite Hf.
  - intros ([neg|neg m e] & Hsc & Hn).
    + by destruct neg.
    + apply scanStrDecimalLiteral_inv in Hsc as (sg & body & -> & Hs & Hb).
      exists sg, neg, body, m, e. repeat split; try done.
      apply roundsToFinite_spec. simpl in Hn.
      destruct (JS.roundsToFinite m e); [done|by destruct neg].
Qed.

(** *** Literals in radix 16, 8 and 2 *)

Lemma digitOf_spec radix c d :
  JS.digitOf radix c = Some d ↔ Spec.radixDigit radix c d.
Proof.
  unfold JS.digitOf, Spec.radixDigit.
  destruct (N.leb_spec 48 c) as [L1|L1], (N.leb_spec c 57) as [L2|L2],
    (N.leb_spec 97 c) as [L3|L3], (N.leb_spec c 102) as [L4|L4],
    (N.leb_spec 65 c) as [L5|L5], (N.leb_spec c 70) as [L6|L6]; simpl;
    try lia;
    repeat match goal with
           | |- context [(?a <? ?b)%Z] =>
               let L := fresh "L" in destruct (Z.ltb_spec a b) as [L|L]
           end;
    (split; [intros Hx; simplify_eq; lia|]);
    intros [Hx Hr]; try lia;
    destruct Hx as [[? ->]|[[? ->]|[? ->]]]; (done || lia).
Qed.

Lemma digitsValue_snoc radix ds c :
  JS.digitsValue radix (ds ++ [c])
  = (JS.digitsValue radix ds * radix + default 0 (JS.digitOf radix c))%Z.
Proof. unfold JS.digitsValue. by rewrite fold_left_app. Qed.

Lemma radixValue_fold radix ds v :
  Spec.radixValue radix ds v ↔
  forallb (JS.isRadixDigit radix) ds = true ∧ JS.digitsValue radix ds = v.
Proof.
  split.
  - induction 1 as [|ds v c d _ [IHf IHv] Hd]; [done|].
    apply digitOf_spec in Hd.
    rewrite forallb_app, IHf, digitsValue_snoc, IHv. simpl.
    unfold JS.isRadixDigit. by rewrite Hd.
  - revert v; induction ds as [|c ds IH] using rev_ind; intros v [Hf <-].
    + constructor.
    + rewrite forallb_app in Hf. apply andb_true_iff in Hf as [Hf Hc].
      simpl in Hc. unfold JS.isRadixDigit in Hc.
      destruct (JS.digitOf radix c) as [d|] eqn:Hd; [|done].
      rewrite digitsValue_snoc, Hd. simpl.
      constructor; [by apply IH|by apply digitOf_spec].
Qed.

Lemma radixOfPrefix_spec c radix :
  JS.radixOfPrefix c = Some radix ↔
  (c = 120 ∨ c = 88) ∧ radix = 16%Z
  ∨ (c = 111 ∨ c = 79) ∧ radix = 8%Z
  ∨ (c = 98 ∨ c = 66) ∧ radix = 2%Z.
Proof.
  unfold JS.radixOfPrefix.
  destruct (N.eqb_spec c 120), (N.eqb_spec c 88), (N.eqb_spec c 111),
    (N.eqb_spec c 79), (N.eqb_spec c 98), (N.eqb_spec c 66); simpl;
    split; try (intros [= <-]); try lia; intros H; try (f_equal; lia).
Qed.

Lemma finiteRadixInteger_scan t :
  Spec.finiteRadixInteger t ↔
  ∃ n, JS.scanNonDecimalInteger t = Some n
       ∧ JS.roundsToFinite n 0 = true.
Proof.
  unfold JS.roundsToFinite, JS.overflowBound. simpl (0 <=? 0)%Z. cbv iota.
  split.
  - intros (p & radix & ds & v & -> & Hne & Hp & Hv & Hb).
    apply radixOfPrefix_spec in Hp. apply radixValue_fold in Hv as [Hf Hv].
    exists v. destruct ds as [|d ds]; [done|].
    unfold JS.scanNonDecimalInteger. rewrite Hp, Hf, Hv. split; [done|].
    apply Z.ltb_lt. lia.
  - intros (n & Hs & Hb). apply Z.ltb_lt in Hb.
    unfold JS.scanNonDecimalInteger in Hs.
    destruct t as [|z [|c [|d ds]]]; try done.
    destruct (JS.radixOfPrefix c) as [radix|] eqn:Hp; [|done].
    destruct (N.eqb_spec z 48) as [->|]; [|done].
    destruct (forallb _ _) eqn:Hf; [|done]. simpl in Hs.
    injection Hs as <-.
    exists c, radix, (d :: ds), (JS.digitsValue radix (d :: ds)).
    split; [done|]. split; [done|].
    split; [by apply radixOfPrefix_spec|].
    split; [by apply radixValue_fold|lia].
Qed.

(** A literal of radix 16, 8 or 2 is no decimal literal: the decimal
    scanner stops before the letter. *)
Lemma radix_not_decimal t n l :
  JS.scanNonDecimalInteger t = Some n →
  JS.scanStrDecimalLiteral t ≠ Some (l, []).
Proof.
  unfold JS.scanNonDecimalInteger.
  destruct t as [|z [|c [|d ds]]]; try done.
  destruct (JS.radixOfPrefix c) as [radix|] eqn:Hp; [|done].
  destruct (N.eqb_spec z 48) as [->|]; [|done]. intros _.
  apply radixOfPrefix_spec in Hp.
  destruct Hp as [[[-> | ->] _]|[[[-> | ->] _]|[[-> | ->] _]]]; done.
Qed.

(** *** Trimming *)

Lemma dropWhile_suffix {A} (p : A → bool) l :
  ∃ a, l = a ++ JS.dropWhile p l ∧ forallb p a = true.
Proof.
  induction l as [|c l (a & IH & Ha)]; simpl.
  - by exists [].
  - destruct (p c) eqn:E.
    + exists (c :: a). simpl. rewrite E, Ha. split; [by f_equal|done].
    + by exists [].
Qed.

Lemma dropWhile_stops {A} (p : A → bool) l : stops p (JS.dropWhile p l).
Proof.
  induction l as [|c l IH]; simpl; [done|].
  destruct (p c) eqn:E; [done|]. simpl. done.
Qed.

Lemma trimStart_trim s : ∃ w, JS.trimStart s = JS.trim s ++ w.
Proof.
  unfold JS.trim, JS.trimEnd.
  destruct (dropWhile_suffix JS.isWhiteSpace (rev (JS.trimStart s)))
    as (a & Ha & _).
  exists (rev a). rewrite <- rev_app_distr, <- Ha. by rewrite rev_involutive.
Qed.

Lemma trim_nil s : JS.trim s = [] → JS.trimStart s = [].
Proof.
  unfold JS.trim, JS.trimEnd. intros H.
  pose proof (dropWhile_stops JS.isWhiteSpace s) as Hs.
  fold (JS.trimStart s) in Hs.
  destruct (JS.trimStart s) as [|c r]; [done|]. simpl in Hs.
  destruct (dropWhile_suffix JS.isWhiteSpace (rev (c :: r))) as (a & Ha & Hf).
  apply (f_equal (@rev N)) in H. rewrite rev_involutive in H.
  change (rev []) with (@nil N) in H.
  rewrite H, app_nil_r in Ha.
  assert (In c a) as Hin.
  { rewrite <- Ha. apply in_rev. rewrite rev_involutive. by left. }
  rewrite forallb_forall in Hf. apply Hf in Hin. congruence.
Qed.

(** *** When parseFloat finds a number *)

Lemma span_head {A} (p : A → bool) c r :
  p c = true → ∃ a b, JS.span p (c :: r) = (c :: a, b).
Proof.
  intros H. simpl. rewrite H. destruct (JS.span p r) as [a b]. by exists a, b.
Qed.

Lemma span_nohead {A} (p : A → bool) c r :
  p c = false → JS.span p (c :: r) = ([], c :: r).
Proof. intros H. simpl. by rewrite H. Qed.

Lemma scanUnsignedDecimal_Some neg s :
  is_Some (JS.scanUnsignedDecimal neg s) ↔ decimalStart s = true.
Proof.
  unfold JS.scanUnsignedDecimal, decimalStart.
  destruct (JS.stripPrefix _ s); [by split|].
  destruct s as [|c r]; [by split; [intros [? [=]]|]|].
  destruct (JS.isDigit c) eqn:Hc.
  - destruct (span_head JS.isDigit c r Hc) as (a & b & ->).
    destruct (JS.startsWithDot b).
    + destruct (JS.span JS.isDigit (tail b)) as [fp r3]. simpl.
      destruct (JS.scanExponent r3). by split.
    + destruct (JS.scanExponent b). by split.
  - rewrite (span_nohead _ _ _ Hc).
    change (JS.startsWithDot (c :: r)) with (c =? 46).
    destruct (c =? 46); simpl; [|by split; [intros [? [=]]|]].
    destruct r as [|d r']; simpl; [by split; [intros [? [=]]|]|].
    destruct (JS.isDigit d) eqn:Hd.
    + destruct (JS.span JS.isDigit r') as [fp r3]. simpl.
      destruct (JS.scanExponent r3). by split.
    + by split; [intros [? [=]]|].
Qed.

Lemma scanStrDecimalLiteral_Some t :
  is_Some (JS.scanStrDecimalLiteral t) ↔ startsDecimal t = true.
Proof.
  unfold JS.scanStrDecimalLiteral, startsDecimal.
  destruct (JS.scanSign t) as [neg r]. apply scanUnsignedDecimal_Some.
Qed.

Lemma stripPrefix_app_Some p s r w :
  JS.stripPrefix p s = Some r → JS.stripPrefix p (s ++ w) = Some (r ++ w).
Proof.
  intros ->%stripPrefix_Some. rewrite <- app_assoc. apply stripPrefix_app.
Qed.

Lemma decimalStart_app s w :
  decimalStart s = true → decimalStart (s ++ w) = true.
Proof.
  unfold decimalStart.
  destruct (JS.stripPrefix _ s) as [r|] eqn:Hs.
  { by rewrite (stripPrefix_app_Some _ _ _ w Hs). }
  destruct (JS.stripPrefix _ (s ++ w)); [done|].
  destruct s as [|c [|d r]]; simpl; try done.
  rewrite andb_false_r, orb_false_r. by intros ->.
Qed.

Lemma startsDecimal_app t w :
  startsDecimal t = true → startsDecimal (t ++ w) = true.
Proof.
  unfold startsDecimal, JS.scanSign.
  destruct t as [|c t]; [done|]. simpl.
  destruct (c =? 45); [apply decimalStart_app|].
  destruct (c =? 43); [apply decimalStart_app|].
  apply (decimalStart_app (c :: t)).
Qed.

Lemma numberOfLiteral_notNaN l : JS.isNaN (JS.numberOfLiteral l) = false.
Proof.
  destruct l as [[]|neg m e]; simpl; try done.
  destruct (JS.roundsToFinite m e); [done|by destruct neg].
Qed.

Lemma parseFloat_notNaN v :
  JS.isNaN (JS.parseFloat v) = false ↔
  startsDecimal (JS.trimStart (JS.ToString v)) = true.
Proof.
  unfold JS.parseFloat. rewrite <- scanStrDecimalLiteral_Some.
  destruct (JS.scanStrDecimalLiteral _) as [[l r]|].
  - rewrite numberOfLiteral_notNaN. by split.
  - split; [done|intros [? [=]]].
Qed.

(** *** When ToNumber is finite *)

Lemma StringToNumber_finite s :
  JS.StringToNumber s = JS.Finite ↔
  JS.trim s = [] ∨ Spec.finiteDecimal (JS.trim s)
  ∨ Spec.finiteRadixInteger (JS.trim s).
Proof.
  unfold JS.StringToNumber.
  rewrite finiteDecimal_scan, finiteRadixInteger_scan.
  destruct (JS.trim s) as [|c t] eqn:Ht.
  { split; [by left|done]. }
  destruct (JS.scanNonDecimalInteger (c :: t)) as [n|] eqn:Hr.
  - split.
    + intros H. right; right. exists n. split; [done|].
      by destruct (JS.roundsToFinite n 0).
    + intros [?|[(l & Hl & _)|(n' & [= <-] & ->)]]; [done| |done].
      by apply (radix_not_decimal _ _ l) in Hr.
  - split.
    + intros H. right; left.
      destruct (JS.scanStrDecimalLiteral (c :: t)) as [[l [|? ?]]|];
        try done. by exists l.
    + intros [?|[(l & -> & Hl)|(n' & [=] & _)]]; done.
Qed.

(** *** isNumeric *)

Lemma isNumeric_spec v :
  isNumeric v = true ↔
  ∃ s, v = Some s
       ∧ (Spec.finiteDecimal (JS.trim s)
          ∨ Spec.finiteRadixInteger (JS.trim s)).
Proof.
  unfold isNumeric, JS.isFinite.
  rewrite andb_true_iff, negb_true_iff, parseFloat_notNaN.
  destruct v as [s|]; simpl.
  2:{ split; [by intros [_ ?]|by intros (s & [=] & _)]. }
  assert (JS.numberIsFinite (JS.StringToNumber s) = true
          ↔ JS.StringToNumber s = JS.Finite) as ->.
  { by destruct (JS.StringToNumber s). }
  rewrite StringToNumber_finite. split.
  - intros [Hp [Hn|Hf]]; [|by exists s].
    apply trim_nil in Hn. by rewrite Hn in Hp.
  - intros (s' & [= <-] & Hf). split; [|by right].
    destruct (trimStart_trim s) as [w ->]. apply startsDecimal_app.
    apply scanStrDecimalLiteral_Some.
    destruct Hf as [(l & -> & _)%finiteDecimal_scan
                   |(n & Hn & _)%finiteRadixInteger_scan]; [done|].
    unfold JS.scanNonDecimalInteger in Hn.
    destruct (JS.trim s) as [|z [|c [|d ds]]]; try done.
    destruct (JS.radixOfPrefix c); [|done].
    destruct (N.eqb_spec z 48) as [->|]; [|done].
    apply scanStrDecimalLiteral_Some. reflexivity.
Qed.

Lemma digits_numericChar ds :
  Spec.isDigits ds → Forall Spec.numericChar ds.
Proof. intros H. eapply Forall_impl; [exact H|]. intros c Hc. by left. Qed.

Lemma sign_numericChar sg neg :
  Spec.signText sg neg → Forall Spec.numericChar sg.
Proof.
  intros []; repeat (apply Forall_cons; split; [unfold Spec.numericChar; lia|]);
    constructor.
Qed.

Lemma exponent_numericChar ex e :
  Spec.exponentText ex e → Forall Spec.numericChar ex.
Proof.
  intros [|c sg neg ds Hc Hs _ Hd]; [constructor|].
  constructor; [unfold Spec.numericChar; lia|].
  apply Forall_app. split; [by apply (sign_numericChar _ neg)|].
  by apply digits_numericChar.
Qed.

Lemma unsigned_numericChar body m e :
  Spec.unsignedDecimalText body m e → Forall Spec.numericChar body.
Proof.
  intros [ip fp ex e' _ Hdi Hdf Hex|fp ex e' _ Hdf Hex|ip ex e' _ Hdi Hex];
    repeat first
      [ apply Forall_app; split
      | apply Forall_cons; split; [unfold Spec.numericChar; lia|]
      | by apply digits_numericChar
      | by apply (exponent_numericChar _ e') ].
Qed.

Lemma finiteDecimal_numericChar t :
  Spec.finiteDecimal t → Forall Spec.numericChar t.
Proof.
  intros (sg & neg & body & m & e & -> & Hs & Hb & _).
  apply Forall_app. split; [by apply (sign_numericChar _ neg)|].
  by apply (unsigned_numericChar _ m e).
Qed.

Lemma radixValue_numericChar radix ds v :
  Spec.radixValue radix ds v → Forall Spec.numericChar ds.
Proof.
  induction 1 as [|ds v c d _ IH [Hd _]]; [constructor|].
  apply Forall_app. split; [done|].
  apply Forall_cons. split; [|constructor].
  unfold Spec.numericChar. lia.
Qed.

Lemma finiteRadixInteger_numericChar t :
  Spec.finiteRadixInteger t → Forall Spec.numericChar t.
Proof.
  intros (p & radix & ds & v & -> & _ & Hp & Hv & _).
  repeat (apply Forall_cons; split; [unfold Spec.numericChar; lia|]).
  by apply (radixValue_numericChar radix _ v).
Qed.

End NumericLemmas.

(** ** The two field validators *)

(** C6. The date check accepts a text exactly when it is YYYY-MM-DD with
    zero-padded fields (four digits, two, two, and nothing else) and names
    a day that exists; 2024-02-30 and 22-10-2024 are rejected, 2024-10-22
    is accepted. *)
Theorem C6_date_validator :
  (∀ s, Moment.isValid (Some s) = true ↔ Spec.calendarDate s)
  ∧ Moment.isValid (Some (JS.str "2024-02-30")) = false
  ∧ Moment.isValid (Some (JS.str "22-10-2024")) = false
  ∧ Moment.isValid (Some (JS.str "2024-10-22")) = true.
Proof.
  split; [apply isValid_calendarDate|].
  repeat split; vm_compute; reflexivity.
Qed.

(** C7, as stated, fails: 0x1A is accepted and is no decimal number. *)
Lemma C7_hexadecimal_accepted :
  isNumeric (Some (JS.str "0x1A")) = true
  ∧ ¬ Spec.finiteDecimal (JS.trim (JS.str "0x1A")).
Proof.
  split; [vm_compute; reflexivity|].
  intros (l & Hl & _)%finiteDecimal_scan. vm_compute in Hl. discriminate.
Qed.

(** C7, amended. [isNumeric] is true exactly for a text that, white space
    trimmed at both ends, is a decimal literal with a finite value or a
    literal in radix 16, 8 or 2 with a finite value; it is false for NaN,
    Infinity, the empty text, a missing value, and any text that after
    trimming holds a character that occurs in no numeric literal; it
    gives a boolean for every value. *)
Theorem C7_isNumeric :
  (∀ v, isNumeric v = true ↔
        ∃ s, v = Some s
             ∧ (Spec.finiteDecimal (JS.trim s)
                ∨ Spec.finiteRadixInteger (JS.trim s)))
  ∧ isNumeric (Some (JS.str "NaN")) = false
  ∧ isNumeric (Some (JS.str "Infinity")) = false
  ∧ isNumeric (Some (JS.str "")) = false
  ∧ isNumeric (Some (JS.str "12abc")) = false
  ∧ isNumeric (Some (JS.str " 12.50 ")) = true
  ∧ isNumeric None = false
  ∧ (∀ s c, c ∈ JS.trim s → ¬ Spec.numericChar c →
            isNumeric (Some s) = false)
  ∧ (∀ v, isNumeric v = true ∨ isNumeric v = false).
Proof.
  split; [apply isNumeric_spec|].
  do 6 (split; [vm_compute; reflexivity|]).
  split.
  - intros s c Hin Hc. apply not_true_is_false.
    intros (s' & [= <-] & Hf)%isNumeric_spec. apply Hc.
    assert (Forall Spec.numericChar (JS.trim s)) as Hall.
    { destruct Hf; [by apply finiteDecimal_numericChar
                   |by apply finiteRadixInteger_numericChar]. }
    rewrite Forall_forall in Hall. by apply Hall.
  - intros v. destruct (isNumeric v); tauto.
Qed.

(** ** Rejected headers *)

Lemma onHeaders_rejects headers :
  ¬ Spec.headerComplete headers →
  ∃ missing,
    snd (onHeaders initialState headers)
    = [{| success := false;
          message := Some (JS.str "Missing required columns");
          missingColumns := Some missing;
          totalRecords := None; r_successfulRecords := None;
          r_failedRecords := None; r_validRows := None;
          r_invalidRows := None |}]
    ∧ missing ≠ []
    ∧ missing = filter (fun col => col ∉ JS.trim <$> headers) requiredColumns.
Proof.
  intros Hn. unfold onHeaders.
  set (hs := foldl _ _ _).
  assert (missingFrom hs
          = filter (fun col => col ∉ JS.trim <$> headers) requiredColumns)
    as Hm.
  { unfold missingFrom. apply list_filter_iff. intros col.
    unfold hs. rewrite elem_of_headersSet.
    change (headersSet initialState) with (∅ : gset (list N)).
    rewrite elem_of_empty. tauto. }
  assert (missingFrom hs ≠ []) as Hne.
  { intros He. apply Hn. intros col Hc.
    destruct (decide (col ∈ JS.trim <$> headers)) as [|Hnot]; [done|].
    assert (col ∈ missingFrom hs) as Hin.
    { rewrite Hm. by apply list_elem_of_filter. }
    rewrite He in Hin. by apply elem_of_nil in Hin. }
  exists (missingFrom hs). split; [|done].
  destruct (missingFrom hs) as [|c l]; [done|]. reflexivity.
Qed.

(** C1. On the header of the specification's scenario, which lacks
    Prev Close, followed by one data line, [cb] is called with the
    missing-columns result and the stream is read on: the line is
    classified and put in [invalidRows], and at the end [cb] is called a
    second time, with a summary whose [success] is true. *)
Theorem C1_header_rejection_reads_on :
  validateCSVContent
    (completeStream Samples.headerNoPrevClose [Samples.lineNoPrevClose])
  = [ {| success := false;
         message := Some (JS.str "Missing required columns");
         missingColumns := Some [JS.str "Prev Close"];
         totalRecords := None; r_successfulRecords := None;
         r_failedRecords := None; r_validRows := None;
         r_invalidRows := None |};
      {| success := true; message := None; missingColumns := None;
         totalRecords := Some 1%nat;
         r_successfulRecords := Some 0%nat;
         r_failedRecords := Some 1%nat;
         r_validRows := Some [];
         r_invalidRows :=
           Some [CsvParser.writeRow Samples.headerNoPrevClose
                                    Samples.lineNoPrevClose] |} ].
Proof. vm_compute. reflexivity. Qed.

(** ** The fields that are checked *)

Lemma forallb_agree {A} (f g : A → bool) l :
  (∀ x, x ∈ l → f x = g x) → forallb f l = forallb g l.
Proof.
  induction l as [|x l IH]; intros H; simpl; [done|].
  rewrite (H x) by left. rewrite IH; [done|].
  intros y Hy. apply H. by right.
Qed.

Lemma rowIsValid_ext (row row' : Row) :
  (∀ col, col ∈ Spec.validatedColumns → row !! col = row' !! col) →
  rowIsValid row = rowIsValid row'.
Proof.
  intros H. rewrite !rowIsValid_spec. unfold Spec.passesAllChecks.
  rewrite (H (JS.str "Date")) by left. f_equal.
  apply forallb_agree. intros col Hc. rewrite (H col); [done|by right].
Qed.

Lemma validatedColumns_eq :
  Spec.validatedColumns =
  map JS.str ["Date"; "Prev Close"; "Open"; "High"; "Low"; "Last"; "Close";
              "VWAP"; "Volume"; "Turnover"; "Trades"; "Deliverable Volume";
              "%Deliverble"]%string.
Proof. vm_compute. reflexivity. Qed.

Lemma unchecked_column (key : list N) :
  key ∉ Spec.validatedColumns →
  ∀ (row : Row) v,
    rowIsValid (<[key := v]> row) = rowIsValid row
    ∧ rowIsValid (delete key row) = rowIsValid row.
Proof.
  intros Hk row v. split; apply rowIsValid_ext; intros col Hc.
  - apply lookup_insert_ne. by intros ->.
  - apply lookup_delete_ne. by intros ->.
Qed.

(** C2, as stated, fails: of the required columns other than Date,
    Symbol and Series there are twelve, not nine, and the good row turns
    invalid when any one of the twelve holds a text that is no number. *)
Lemma C2_twelve_numeric_columns :
  List.length Spec.numericColumns ≠ 9%nat
  ∧ rowIsValid Samples.goodRow = true
  ∧ forallb (fun col => negb (rowIsValid (<[col := JS.str "x"]> Samples.goodRow)))
            Spec.numericColumns = true.
Proof. split; [vm_compute; lia|]. split; vm_compute; reflexivity. Qed.

(** C2, amended. The row check applies the date check to Date and the
    numeric check to the twelve required columns other than Date, Symbol
    and Series, and reads no other field: the verdict is the conjunction
    of these thirteen checks, every one of the thirteen columns can turn
    a valid row invalid, and no other key (Symbol and Series among them)
    has any influence. *)
Theorem C2_checked_fields :
  Spec.numericColumns =
    map JS.str ["Prev Close"; "Open"; "High"; "Low"; "Last"; "Close"; "VWAP";
                "Volume"; "Turnover"; "Trades"; "Deliverable Volume";
                "%Deliverble"]%string
  ∧ List.length Spec.numericColumns = 12%nat
  ∧ (∀ row : Row,
       rowIsValid row =
       (Moment.isValid (row !! JS.str "Date")
        && forallb (fun col => isNumeric (row !! col)) Spec.numericColumns))
  ∧ (∀ col, col ∈ Spec.validatedColumns →
            ∃ (row : Row) v,
              rowIsValid row = true ∧ rowIsValid (<[col := v]> row) = false)
  ∧ (∀ (key : list N) (row : Row) v,
       key ∉ Spec.validatedColumns →
       rowIsValid (<[key := v]> row) = rowIsValid row
       ∧ rowIsValid (delete key row) = rowIsValid row)
  ∧ (JS.str "Symbol" ∉ Spec.validatedColumns)
  ∧ (JS.str "Series" ∉ Spec.validatedColumns).
Proof.
  split; [apply numericColumns_eq|].
  split; [vm_compute; reflexivity|].
  split; [intros row; rewrite rowIsValid_spec; reflexivity|].
  split.
  { intros col Hc. exists Samples.goodRow, (JS.str "x").
    split; [vm_compute; reflexivity|].
    assert (forallb (fun col =>
                       negb (rowIsValid (<[col := JS.str "x"]> Samples.goodRow)))
                    Spec.validatedColumns = true) as Hall
      by (vm_compute; reflexivity).
    rewrite forallb_forall in Hall.
    apply negb_true_iff, Hall, list_elem_of_In, Hc. }
  split; [intros key row v Hk; by apply unchecked_column|].
  rewrite validatedColumns_eq.
  split; apply (bool_decide_eq_false_1 _); vm_compute; reflexivity.
Qed.

(** ** Absent fields *)

Lemma absent_field_fails (row : Row) col :
  col ∈ Spec.validatedColumns → row !! col = None → rowIsValid row = false.
Proof.
  intros Hc Hn. rewrite rowIsValid_spec. unfold Spec.passesAllChecks.
  apply elem_of_cons in Hc as [->|Hc].
  - rewrite Hn. reflexivity.
  - apply andb_false_iff. right. apply not_true_is_false.
    rewrite forallb_forall. intros Hall.
    apply list_elem_of_In, Hall in Hc. rewrite Hn in Hc. done.
Qed.

(** C8. A row that lacks a checked column is classified as invalid: the
    date check and the numeric check both answer false on a missing
    value, the handler puts the row in [invalidRows], calls [cb] for
    nothing, and the events after the row are handled as usual. *)
Theorem C8_absent_field_invalid (row : Row) (col : list N) :
  col ∈ Spec.validatedColumns → row !! col = None →
  Moment.isValid None = false
  ∧ isNumeric None = false
  ∧ rowIsValid row = false
  ∧ (∀ st,
       onData st row =
       ({| headersSet := headersSet st;
           validRows := validRows st;
           invalidRows := invalidRows st ++ [row];
           successfulRecords := successfulRecords st;
           failedRecords := S (failedRecords st) |}, []))
  ∧ (∀ st rest,
       run st (EvData row :: rest) = run (fst (onData st row)) rest).
Proof.
  intros Hc Hn. pose proof (absent_field_fails row col Hc Hn) as Hf.
  split; [reflexivity|]. split; [reflexivity|]. split; [done|].
  split.
  - intros st. unfold onData. by rewrite Hf.
  - intros st rest. simpl. unfold onData. rewrite Hf. simpl.
    by destruct (run _ rest).
Qed.

Lemma C8_absent_field_invalid_witness :
  JS.str "Volume" ∈ Spec.validatedColumns
  ∧ Samples.shortRow !! JS.str "Volume" = None
  ∧ rowIsValid Samples.shortRow = false.
Proof.
  assert (JS.str "Volume" ∈ Spec.validatedColumns) as Hc.
  { apply (bool_decide_eq_true_1 _). vm_compute. reflexivity. }
  assert (Samples.shortRow !! JS.str "Volume" = None) as Hn.
  { vm_compute. reflexivity. }
  split; [exact Hc|]. split; [exact Hn|].
  exact (proj1 (proj2 (proj2
    (C8_absent_field_invalid Samples.shortRow (JS.str "Volume") Hc Hn)))).
Defined.

(** ** The insertion step *)

Section Insertion.
Context {Inserted Failure : Type}.
Variable insertMany : list Route.PersistedRecord → Inserted + Failure.

Lemma insertValidRecords_calls (req : Route.Request) :
  Route.gatewayCalls (Route.insertValidRecords insertMany req)
  = match default [] (Route.req_validRows req) with
    | [] => []
    | vs => [map Route.toRecord vs]
    end.
Proof.
  unfold Route.insertValidRecords.
  destruct (default [] (Route.req_validRows req)) as [|r vs]; [done|].
  simpl. by destruct (insertMany _).
Qed.

End Insertion.

(** C9. After an ingestion whose one result has [success] true (the
    callback is called once, so no response was sent before it), the
    insertion step answers 400 with the message of no valid rows, without
    calling [insertMany], when [validRows] is empty; [insertMany] is
    called, once, exactly when [validRows] is not empty, and its argument
    is the accepted rows, in order, each mapped to the persisted field
    names. *)
Theorem C9_insertion_step {Inserted Failure : Type}
    (insertMany : list Route.PersistedRecord → Inserted + Failure)
    (events : list event) (result : ValidationResult) (vs : list Row) :
  validateCSVContent events = [result] →
  success result = true → r_validRows result = Some vs →
  (vs = [] →
     Route.upload insertMany result
     = {| Route.gatewayCalls := [];
          Route.response := {| Route.status := 400;
                               Route.body := Route.NoValidRows |} |}
     ∧ Route.msg (Route.NoValidRows (Inserted := Inserted)
                                    (Failure := Failure))
       = "No valid rows to insert into the database"%string)
  ∧ (vs ≠ [] →
     Route.gatewayCalls (Route.upload insertMany result)
     = [map Route.toRecord vs])
  ∧ (Route.gatewayCalls (Route.upload insertMany result) ≠ [] ↔ vs ≠ [])
  ∧ (∀ records,
       records ∈ Route.gatewayCalls (Route.upload insertMany result) →
       records = map Route.toRecord vs)
  ∧ (∀ row : Row,
       Route.toRecord row
       = {| Route.date := row !! JS.str "Date";
            Route.symbol := row !! JS.str "Symbol";
            Route.series := row !! JS.str "Series";
            Route.prev_close := row !! JS.str "Prev Close";
            Route.open := row !! JS.str "Open";
            Route.high := row !! JS.str "High";
            Route.low := row !! JS.str "Low";
            Route.last := row !! JS.str "Last";
            Route.close := row !! JS.str "Close";
            Route.vwap := row !! JS.str "VWAP";
            Route.volume := row !! JS.str "Volume";
            Route.turnover := row !! JS.str "Turnover";
            Route.trades := row !! JS.str "Trades";
            Route.deliverable := row !! JS.str "Deliverable Volume";
            Route.percentage_deliverable := row !! JS.str "%Deliverble" |}).
Proof.
  intros _ Hs Hv.
  assert (Route.gatewayCalls (Route.upload insertMany result)
          = match vs with [] => [] | _ => [map Route.toRecord vs] end) as Hc.
  { unfold Route.upload, Route.onValidationResult. rewrite Hs. simpl.
    rewrite insertValidRecords_calls. simpl. rewrite Hv. by destruct vs. }
  split.
  { intros ->. split; [|reflexivity].
    unfold Route.upload, Route.onValidationResult, Route.insertValidRecords.
    rewrite Hs. simpl. by rewrite Hv. }
  split.
  { intros Hne. rewrite Hc. by destruct vs. }
  split.
  { rewrite Hc. by destruct vs. }
  split; [|reflexivity].
  intros records. rewrite Hc. destruct vs; [by intros ?%elem_of_nil|].
  by intros ->%list_elem_of_singleton.
Qed.

Lemma C9_insertion_step_witness :
  validateCSVContent (completeStream Samples.header [Samples.badDateLine])
  = [Spec.summaryOf [Samples.badDateRow]]
  ∧ success (Spec.summaryOf [Samples.badDateRow]) = true
  ∧ r_validRows (Spec.summaryOf [Samples.badDateRow]) = Some []
  ∧ Route.upload (Inserted := list Route.PersistedRecord) (Failure := unit)
      inl (Spec.summaryOf [Samples.badDateRow])
    = {| Route.gatewayCalls := [];
         Route.response := {| Route.status := 400;
                              Route.body := Route.NoValidRows |} |}.
Proof.
  assert (validateCSVContent
            (completeStream Samples.header [Samples.badDateLine])
          = [Spec.summaryOf [Samples.badDateRow]]) as He.
  { vm_compute. reflexivity. }
  assert (r_validRows (Spec.summaryOf [Samples.badDateRow]) = Some []) as Hv.
  { vm_compute. reflexivity. }
  split; [exact He|]. split; [reflexivity|]. split; [exact Hv|].
  exact (proj1 (proj1
    (C9_insertion_step (Inserted := list Route.PersistedRecord)
       (Failure := unit) inl
       (completeStream Samples.header [Samples.badDateLine])
       (Spec.summaryOf [Samples.badDateRow]) []
       He eq_refl Hv) eq_refl)).
Defined.

(** ** Keys of a row *)

(** A key of a row built by the parser is a header name as it stands in
    the header line, or [_index] for a cell beyond the header. *)
Lemma writeRow_keys headers cells key :
  is_Some (CsvParser.writeRow headers cells !! key) →
  key ∈ headers ∨ ∃ index : nat, key = JS.str ("_" +:+ pretty index).
Proof.
  unfold CsvParser.writeRow.
  assert (∀ (l : list (nat * list N)) (o : gmap (list N) (list N)),
            is_Some (foldl (fun o '(index, cell) =>
                       match headers !! index with
                       | Some header => <[header := cell]> o
                       | None => <[JS.str ("_" +:+ pretty index) := cell]> o
                       end) o l !! key) →
            is_Some (o !! key) ∨ key ∈ headers
            ∨ ∃ index : nat, key = JS.str ("_" +:+ pretty index)) as Hgen.
  { induction l as [|[index cell] l IH]; intros o; simpl; [by left|].
    intros [H|H]%IH; [|by right].
    destruct (headers !! index) as [header|] eqn:Hh.
    - destruct (decide (header = key)) as [<-|Hne].
      + right; left. by apply list_elem_of_lookup_2 in Hh.
      + left. by rewrite lookup_insert_ne in H.
    - destruct (decide (JS.str ("_" +:+ pretty index) = key)) as [<-|Hne].
      + right; right. by exists index.
      + left. by rewrite lookup_insert_ne in H. }
  intros [H|H]%Hgen; [|done].
  rewrite lookup_empty in H. by destruct H.
Qed.

Lemma validated_not_underscore col (index : nat) :
  col ∈ Spec.validatedColumns → col ≠ JS.str ("_" +:+ pretty index).
Proof.
  assert (forallb (fun col => negb (bool_decide (head col = Some 95)))
                  Spec.validatedColumns = true) as Hall
    by (vm_compute; reflexivity).
  rewrite forallb_forall in Hall.
  intros Hc%list_elem_of_In%Hall ->.
  apply negb_true_iff, bool_decide_eq_false in Hc. by apply Hc.
Qed.

Lemma validated_required col :
  col ∈ Spec.validatedColumns → col ∈ requiredColumns.
Proof.
  assert (forallb (fun col => bool_decide (col ∈ requiredColumns))
                  Spec.validatedColumns = true) as Hall
    by (vm_compute; reflexivity).
  rewrite forallb_forall in Hall.
  intros Hc%list_elem_of_In%Hall. by apply bool_decide_eq_true in Hc.
Qed.

(** C10, as stated, fails: with Symbol padded in the header, the header
    is accepted and the good line is a valid row. *)
Lemma C10_padded_symbol_row_valid :
  JS.str " Symbol" ∈ Samples.headerPaddedSymbol
  ∧ JS.trim (JS.str " Symbol") ∈ requiredColumns
  ∧ JS.trim (JS.str " Symbol") ≠ JS.str " Symbol"
  ∧ snd (onHeaders initialState Samples.headerPaddedSymbol) = []
  ∧ rowIsValid
      (CsvParser.writeRow Samples.headerPaddedSymbol Samples.goodLine)
    = true.
Proof.
  split; [apply (bool_decide_eq_true_1 _); vm_compute; reflexivity|].
  split; [apply (bool_decide_eq_true_1 _); vm_compute; reflexivity|].
  split; [apply (bool_decide_eq_false_1 _); vm_compute; reflexivity|].
  split; vm_compute; reflexivity.
Qed.

(** C10, amended. Header names are trimmed for the header check, and the
    rows keep the names as they stand.  When every required column is in
    the header after trimming and a checked column (Date or one of the
    twelve numeric columns) is not there under its exact name, then the
    name is there padded with white space, the header is accepted, and
    every row built from this header has no value under the exact name
    and is invalid. *)
Theorem C10_padded_checked_column (headers : list (list N)) (col : list N) :
  Spec.headerComplete headers →
  col ∈ Spec.validatedColumns →
  col ∉ headers →
  (∃ h, h ∈ headers ∧ h ≠ col ∧ JS.trim h = col)
  ∧ snd (onHeaders initialState headers) = []
  ∧ ∀ cells,
      CsvParser.writeRow headers cells !! col = None
      ∧ rowIsValid (CsvParser.writeRow headers cells) = false.
Proof.
  intros Hc Hv Hn. split.
  { specialize (Hc col (validated_required col Hv)).
    apply list_elem_of_fmap in Hc as (h & -> & Hh).
    exists h. split; [done|]. split; [|done].
    intros E. rewrite <- E in Hn. done. }
  split; [by apply onHeaders_accepts|].
  intros cells.
  assert (CsvParser.writeRow headers cells !! col = None) as Hnone.
  { apply eq_None_not_Some. intros [H|[index H]]%writeRow_keys; [done|].
    by apply (validated_not_underscore col index). }
  split; [done|]. by apply (absent_field_fails _ col).
Qed.

Lemma padded_header_complete : Spec.headerComplete Samples.headerPaddedDate.
Proof. apply headerCompleteb_spec. vm_compute. reflexivity. Qed.

Lemma C10_padded_checked_column_witness :
  Spec.headerComplete Samples.headerPaddedDate
  ∧ JS.str "Date" ∈ Spec.validatedColumns
  ∧ (JS.str "Date" ∉ Samples.headerPaddedDate)
  ∧ snd (onHeaders initialState Samples.headerPaddedDate) = []
  ∧ rowIsValid (CsvParser.writeRow Samples.headerPaddedDate Samples.goodLine)
    = false.
Proof.
  assert (JS.str "Date" ∈ Spec.validatedColumns) as Hv.
  { apply (bool_decide_eq_true_1 _). vm_compute. reflexivity. }
  assert (JS.str "Date" ∉ Samples.headerPaddedDate) as Hn.
  { apply (bool_decide_eq_false_1 _). vm_compute. reflexivity. }
  split; [apply padded_header_complete|]. split; [exact Hv|].
  split; [exact Hn|].
  pose (C10_padded_checked_column Samples.headerPaddedDate (JS.str "Date")
          padded_header_complete Hv Hn) as H.
  split; [exact (proj1 (proj2 H))|].
  exact (proj2 (proj2 (proj2 H) Samples.goodLine)).
Defined.

(** ** Scenarios *)

(** Two data lines, the second with the date written 22-10-2024: one
    record succeeds and one fails. *)
Example mixed_validity_scenario :
  validateCSVContent
    (completeStream Samples.header [Samples.goodLine; Samples.badDateLine])
  = [ {| success := true; message := None; missingColumns := None;
         totalRecords := Some 2%nat;
         r_successfulRecords := Some 1%nat;
         r_failedRecords := Some 1%nat;
         r_validRows := Some [Samples.goodRow];
         r_invalidRows := Some [Samples.badDateRow] |} ].
Proof. vm_compute. reflexivity. Qed.

(** A stream whose rows all fail: the summary has no valid row and the
    insertion step answers 400 without a call of [insertMany]. *)
Lemma all_rows_invalid_no_insert {Inserted Failure : Type}
    (insertMany : list Route.PersistedRecord → Inserted + Failure)
    (headers : list (list N)) (rows : list Row) :
  Spec.headerComplete headers →
  (∀ row, row ∈ rows → rowIsValid row = false) →
  ∃ s,
    validateCSVContent (EvHeaders headers :: map EvData rows ++ [EvEnd]) = [s]
    ∧ r_successfulRecords s = Some 0%nat
    ∧ Route.upload insertMany s
      = {| Route.gatewayCalls := [];
           Route.response := {| Route.status := 400;
                                Route.body := Route.NoValidRows |} |}.
Proof.
  intros Hc Hall. rewrite (validate_accepted _ _ Hc).
  assert (filter (λ r : Row, rowIsValid r) rows = []) as Hnil.
  { apply elem_of_nil_inv. intros row [Hv Hin]%list_elem_of_filter.
    apply Hall in Hin. apply Is_true_true in Hv. congruence. }
  exists (Spec.summaryOf rows). split; [reflexivity|].
  unfold Spec.summaryOf. rewrite Hnil. split; reflexivity.
Qed.

(** A header without Symbol followed by a well-formed line: after the
    missing-columns result the row is accepted, and the summary emitted
    at the end of the stream leads the route to call [insertMany].  The
    request was answered by the first result; the call is made before
    the handler tries to answer again. *)
Example header_rejection_then_insert :
  ∃ rejection summary,
    validateCSVContent
      (completeStream Samples.headerNoSymbol [Samples.lineNoSymbol])
    = [rejection; summary]
    ∧ success rejection = false
    ∧ missingColumns rejection = Some [JS.str "Symbol"]
    ∧ success summary = true
    ∧ r_successfulRecords summary = Some 1%nat
    ∧ List.length
        (Route.gatewayCalls
           (Route.upload (Inserted := list Route.PersistedRecord)
                         (Failure := unit) inl summary)) = 1%nat.
Proof.
  eexists _, _. split; [vm_compute; reflexivity|].
  repeat split; vm_compute; reflexivity.
Qed.

(** * Further properties *)

(** ** The header check *)

Lemma missingFrom_headers st headers :
  headersSet st = ∅ →
  missingFrom (foldl (fun set header => set ∪ {[JS.trim header]})
                     (headersSet st) headers)
  = filter (fun col => col ∉ JS.trim <$> headers) requiredColumns.
Proof.
  intros He. unfold missingFrom. apply list_filter_iff. intros col.
  rewrite elem_of_headersSet, He, elem_of_empty. tauto.
Qed.

(** X1. The header handler calls [cb] exactly when a required column is
    absent from the trimmed header names, once, with [success] false,
    the message of missing columns, and the absent required columns in
    the order of the list of required columns. *)
Theorem X1_header_check_result (headers : list (list N)) :
  snd (onHeaders initialState headers)
  = match filter (fun col => col ∉ JS.trim <$> headers) requiredColumns with
    | [] => []
    | missing => [Notions.rejection missing]
    end
  ∧ (filter (fun col => col ∉ JS.trim <$> headers) requiredColumns = []
     ↔ Spec.headerComplete headers).
Proof.
  split.
  - unfold onHeaders. rewrite (missingFrom_headers initialState) by done.
    by destruct (filter _ requiredColumns).
  - split.
    + intros Hf col Hc.
      destruct (decide (col ∈ JS.trim <$> headers)) as [|Hn]; [done|].
      assert (col ∈ filter (fun col => col ∉ JS.trim <$> headers)
                           requiredColumns) as Hin
        by by apply list_elem_of_filter.
      rewrite Hf in Hin. by apply elem_of_nil in Hin.
    + intros Hc. apply elem_of_nil_inv.
      intros col [Hn Hr]%list_elem_of_filter. by apply Hn, Hc.
Qed.

(** X2. The header check looks at the set of trimmed header names only:
    two header lines with the same trimmed names, whatever their order,
    repetitions and padding, get the same answer. *)
Theorem X2_header_check_set (h1 h2 : list (list N)) :
  (∀ name, name ∈ JS.trim <$> h1 ↔ name ∈ JS.trim <$> h2) →
  snd (onHeaders initialState h1) = snd (onHeaders initialState h2).
Proof.
  intros H. unfold onHeaders.
  rewrite !(missingFrom_headers initialState) by done.
  assert (filter (fun col => col ∉ JS.trim <$> h1) requiredColumns
          = filter (fun col => col ∉ JS.trim <$> h2) requiredColumns) as ->.
  { apply list_filter_iff. intros col. by rewrite H. }
  by destruct (_ <? _)%nat.
Qed.

Lemma X2_header_check_set_witness :
  (∀ name, name ∈ JS.trim <$> Samples.header
           ↔ name ∈ JS.trim <$> (JS.str " Date " :: reverse Samples.header))
  ∧ snd (onHeaders initialState Samples.header)
    = snd (onHeaders initialState (JS.str " Date " :: reverse Samples.header)).
Proof.
  assert (∀ name, name ∈ JS.trim <$> Samples.header
           ↔ name ∈ JS.trim <$> (JS.str " Date " :: reverse Samples.header))
    as H.
  { intros name. rewrite fmap_cons, fmap_reverse, elem_of_cons,
      elem_of_reverse.
    split; [tauto|]. intros [->|?]; [|done].
    apply (bool_decide_eq_true_1 _). vm_compute. reflexivity. }
  split; [exact H|].
  exact (X2_header_check_set Samples.header
           (JS.str " Date " :: reverse Samples.header) H).
Defined.

(** ** Streams *)

(** X3. On a stream that is read to its end, [cb] is called with the
    summary of all data rows whatever the header was; this call is the
    only one when the header is complete, and the second one, after the
    missing-columns result, when it is not. *)
Theorem X3_end_of_stream_summary (headers : list (list N))
    (rows : list Row) :
  ∃ before,
    validateCSVContent (EvHeaders headers :: map EvData rows ++ [EvEnd])
    = before ++ [Spec.summaryOf rows]
    ∧ totalRecords (Spec.summaryOf rows) = Some (List.length rows)
    ∧ (Spec.headerComplete headers → before = [])
    ∧ (¬ Spec.headerComplete headers →
       ∃ missing, missing ≠ [] ∧ before = [Notions.rejection missing]).
Proof.
  exists (snd (onHeaders initialState headers)).
  split; [apply validate_complete|].
  split; [simpl; f_equal; apply filter_lengths|].
  split; [apply onHeaders_accepts|].
  intros Hn. unfold onHeaders.
  rewrite (missingFrom_headers initialState) by done.
  destruct (filter _ requiredColumns) as [|c l] eqn:Hf.
  - exfalso. apply Hn. intros col Hc.
    destruct (decide (col ∈ JS.trim <$> headers)) as [|Hnot]; [done|].
    assert (col ∈ filter (fun col => col ∉ JS.trim <$> headers)
                         requiredColumns) as Hin
      by by apply list_elem_of_filter.
    rewrite Hf in Hin. by apply elem_of_nil in Hin.
  - by exists (c :: l).
Qed.

(** X4. When the stream fails after the header and some data rows,
    [cb] is called with [success] false and the message of the error,
    and with no summary.  After a complete header this is the only call
    of [cb]: the upload handler answers 400 with the failure as details,
    and [insertMany] is not called. *)
Theorem X4_stream_error {Inserted Failure : Type}
    (insertMany : list Route.PersistedRecord → Inserted + Failure)
    (headers : list (list N)) (rows : list Row) (msg : list N) :
  ∃ before,
    validateCSVContent (EvHeaders headers :: map EvData rows ++ [EvError msg])
    = before ++ [Notions.failure msg]
    ∧ (Spec.headerComplete headers → before = [])
    ∧ Forall (fun r => success r = false)
             (validateCSVContent
                (EvHeaders headers :: map EvData rows ++ [EvError msg]))
    ∧ (Spec.headerComplete headers →
       Upload.uploadCSV insertMany None
         (Some (EvHeaders headers :: map EvData rows ++ [EvError msg]))
       = [Upload.Validated
            {| Route.gatewayCalls := [];
               Route.response :=
                 {| Route.status := 400;
                    Route.body :=
                      Route.ValidationFailed (Notions.failure msg) |} |}]).
Proof.
  exists (snd (onHeaders initialState headers)).
  assert (validateCSVContent
            (EvHeaders headers :: map EvData rows ++ [EvError msg])
          = snd (onHeaders initialState headers) ++ [Notions.failure msg])
    as Hv.
  { unfold validateCSVContent. simpl.
    destruct (onHeaders initialState headers) as [st1 o1]. simpl.
    rewrite run_app, run_data. reflexivity. }
  assert (Forall (fun r => success r = false)
                 (snd (onHeaders initialState headers)
                  ++ [Notions.failure msg])) as Hf.
  { apply Forall_app. split; [|by repeat constructor].
    unfold onHeaders. destruct (_ <? _)%nat; by repeat constructor. }
  split; [done|]. split; [apply onHeaders_accepts|].
  rewrite Hv. split; [done|].
  intros Hc. unfold Upload.uploadCSV.
  rewrite Hv, (onHeaders_accepts initialState headers Hc).
  reflexivity.
Qed.

Lemma X4_stream_error_witness :
  Spec.headerComplete Samples.header
  ∧ Upload.uploadCSV (Inserted := list Route.PersistedRecord)
      (Failure := unit) inl None
      (Some (EvHeaders Samples.header :: map EvData [Samples.goodRow]
             ++ [EvError (JS.str "read failed")]))
    = [Upload.Validated
         {| Route.gatewayCalls := [];
            Route.response :=
              {| Route.status := 400;
                 Route.body :=
                   Route.ValidationFailed
                     (Notions.failure (JS.str "read failed")) |} |}].
Proof.
  split; [exact sample_header_complete|].
  destruct (X4_stream_error (Inserted := list Route.PersistedRecord)
              (Failure := unit) inl Samples.header [Samples.goodRow]
              (JS.str "read failed")) as (before & _ & _ & _ & H).
  exact (H sample_header_complete).
Defined.

(** ** Any sequence of events *)

Lemma handle_accumulators st e :
  validRows (fst (handle st e))
  = validRows st ++ filter (fun r => rowIsValid r) (Notions.dataRows [e])
  ∧ invalidRows (fst (handle st e))
    = invalidRows st
      ++ filter (fun r => ¬ rowIsValid r) (Notions.dataRows [e])
  ∧ successfulRecords (fst (handle st e))
    = (successfulRecords st
       + List.length (filter (fun r => rowIsValid r) (Notions.dataRows [e])))%nat
  ∧ failedRecords (fst (handle st e))
    = (failedRecords st
       + List.length (filter (fun r => ¬ rowIsValid r)
                             (Notions.dataRows [e])))%nat.
Proof.
  destruct e as [headers|row| |msg]; simpl.
  - unfold onHeaders. destruct (_ <? _)%nat; simpl;
      rewrite !app_nil_r, !Nat.add_0_r; done.
  - unfold onData, Notions.dataRows. simpl.
    destruct (rowIsValid row) eqn:E; simpl.
    + rewrite filter_cons_True by (by apply Is_true_true).
      rewrite filter_cons_False by (intros H; apply H, Is_true_true, E).
      simpl. rewrite !app_nil_r. repeat split; lia.
    + rewrite filter_cons_False by (by apply Is_true_false).
      rewrite filter_cons_True by (by apply Is_true_false).
      simpl. rewrite !app_nil_r. repeat split; lia.
  - rewrite !app_nil_r, !Nat.add_0_r; done.
  - rewrite !app_nil_r, !Nat.add_0_r; done.
Qed.

Lemma dataRows_cons e events :
  Notions.dataRows (e :: events)
  = Notions.dataRows [e] ++ Notions.dataRows events.
Proof. unfold Notions.dataRows. simpl. by destruct e. Qed.

Lemma run_cons st e events :
  fst (run st (e :: events)) = fst (run (fst (handle st e)) events)
  ∧ snd (run st (e :: events))
    = snd (handle st e) ++ snd (run (fst (handle st e)) events).
Proof.
  simpl. destruct (handle st e) as [st1 o1]. simpl.
  by destruct (run st1 events).
Qed.

Lemma run_accumulators st events :
  validRows (fst (run st events))
  = validRows st ++ filter (fun r => rowIsValid r) (Notions.dataRows events)
  ∧ invalidRows (fst (run st events))
    = invalidRows st
      ++ filter (fun r => ¬ rowIsValid r) (Notions.dataRows events)
  ∧ successfulRecords (fst (run st events))
    = (successfulRecords st
       + List.length (filter (fun r => rowIsValid r)
                             (Notions.dataRows events)))%nat
  ∧ failedRecords (fst (run st events))
    = (failedRecords st
       + List.length (filter (fun r => ¬ rowIsValid r)
                             (Notions.dataRows events)))%nat.
Proof.
  revert st; induction events as [|e events IH]; intros st.
  - simpl. rewrite !app_nil_r, !Nat.add_0_r. done.
  - pose proof (handle_accumulators st e) as (Hv & Hi & Hs & Hf).
    specialize (IH (fst (handle st e))) as (IHv & IHi & IHs & IHf).
    rewrite (proj1 (run_cons st e events)).
    rewrite dataRows_cons, !filter_app, !length_app.
    rewrite IHv, IHi, IHs, IHf, Hv, Hi, Hs, Hf.
    rewrite <- !app_assoc. repeat split; lia.
Qed.

Lemma filter_partition {A} (P : A → Prop) `{∀ x, Decision (P x)}
    (l : list A) :
  filter P l ++ filter (fun x => ¬ P x) l ≡ₚ l.
Proof.
  induction l as [|x l IH]; [done|].
  destruct (decide (P x)).
  - rewrite filter_cons_True, filter_cons_False by tauto.
    rewrite <- app_comm_cons. by apply Permutation_skip.
  - rewrite filter_cons_False, filter_cons_True by tauto.
    rewrite <- Permutation_middle. by apply Permutation_skip.
Qed.

(** X5. Whatever events arrive and in whatever order, the accumulators
    hold the rows of the data events seen so far: [validRows] the rows
    that pass the row check and [invalidRows] the rows that fail it,
    each in order of arrival, and the two counters are the lengths of
    the two sequences. *)
Theorem X5_accumulators (events : list event) :
  validRows (fst (run initialState events))
  = filter (fun r => rowIsValid r) (Notions.dataRows events)
  ∧ invalidRows (fst (run initialState events))
    = filter (fun r => ¬ rowIsValid r) (Notions.dataRows events)
  ∧ successfulRecords (fst (run initialState events))
    = List.length (validRows (fst (run initialState events)))
  ∧ failedRecords (fst (run initialState events))
    = List.length (invalidRows (fst (run initialState events)))
  ∧ validRows (fst (run initialState events))
    ++ invalidRows (fst (run initialState events))
    ≡ₚ Notions.dataRows events.
Proof.
  pose proof (run_accumulators initialState events) as (Hv & Hi & Hs & Hf).
  simpl in Hv, Hi, Hs, Hf. rewrite Hv, Hi, Hs, Hf.
  do 4 (split; [done|]). apply filter_partition.
Qed.

Lemma handle_consistent st e :
  successfulRecords st = List.length (validRows st) →
  failedRecords st = List.length (invalidRows st) →
  Forall (fun r => success r = true → Notions.consistent r)
         (snd (handle st e)).
Proof.
  intros Hs Hf. destruct e as [headers|row| |msg]; simpl.
  - unfold onHeaders. destruct (_ <? _)%nat; by repeat constructor.
  - unfold onData. destruct (rowIsValid row); constructor.
  - repeat constructor. intros _.
    exists (successfulRecords st), (failedRecords st), (validRows st),
      (invalidRows st). done.
  - by repeat constructor.
Qed.

Lemma run_consistent st events :
  successfulRecords st = List.length (validRows st) →
  failedRecords st = List.length (invalidRows st) →
  Forall (fun r => success r = true → Notions.consistent r)
         (snd (run st events)).
Proof.
  revert st; induction events as [|e events IH]; intros st Hs Hf.
  - constructor.
  - pose proof (handle_consistent st e Hs Hf) as H1.
    pose proof (handle_accumulators st e) as (Hv & Hi & Hs1 & Hf1).
    rewrite (proj2 (run_cons st e events)).
    apply Forall_app. split; [done|]. apply IH.
    + rewrite Hs1, Hv, length_app. lia.
    + rewrite Hf1, Hi, length_app. lia.
Qed.

(** X6. Every result with [success] true that [cb] receives, on any
    sequence of events, has all five fields of a summary, a total that
    is the sum of the two counters, and counters that are the lengths of
    its [validRows] and [invalidRows]. *)
Theorem X6_summaries_consistent (events : list event) :
  Forall (fun r => success r = true → Notions.consistent r)
         (validateCSVContent events).
Proof. by apply run_consistent. Qed.

(** ** White space and signs in numeric values *)

Lemma dropWhile_app_all {A} (p : A → bool) a l :
  forallb p a = true → JS.dropWhile p (a ++ l) = JS.dropWhile p l.
Proof.
  induction a as [|c a IH]; simpl; [done|].
  intros [-> Ha]%andb_true_iff. by apply IH.
Qed.

Lemma dropWhile_all {A} (p : A → bool) a :
  forallb p a = true → JS.dropWhile p a = [].
Proof.
  intros H. rewrite <- (app_nil_r a). by rewrite dropWhile_app_all.
Qed.

Lemma dropWhile_app {A} (p : A → bool) s b :
  JS.dropWhile p (s ++ b)
  = if forallb p s then JS.dropWhile p b else JS.dropWhile p s ++ b.
Proof.
  induction s as [|c s IH]; simpl; [done|].
  destruct (p c); [done|]. reflexivity.
Qed.

Lemma forallb_rev {A} (p : A → bool) l :
  forallb p (rev l) = forallb p l.
Proof.
  induction l as [|c l IH]; simpl; [done|].
  rewrite forallb_app, IH. simpl. by rewrite andb_true_r, andb_comm.
Qed.

Lemma trimEnd_app_all l b :
  forallb JS.isWhiteSpace b = true → JS.trimEnd (l ++ b) = JS.trimEnd l.
Proof.
  intros Hb. unfold JS.trimEnd. rewrite rev_app_distr.
  rewrite dropWhile_app_all; [done|]. by rewrite forallb_rev.
Qed.

Lemma trimEnd_all b :
  forallb JS.isWhiteSpace b = true → JS.trimEnd b = [].
Proof.
  intros Hb. unfold JS.trimEnd. rewrite dropWhile_all; [done|].
  by rewrite forallb_rev.
Qed.

Lemma trim_app_end s b :
  forallb JS.isWhiteSpace b = true → JS.trim (s ++ b) = JS.trim s.
Proof.
  intros Hb. unfold JS.trim, JS.trimStart.
  rewrite dropWhile_app. destruct (forallb JS.isWhiteSpace s) eqn:Hs.
  - by rewrite !dropWhile_all.
  - by apply trimEnd_app_all.
Qed.

Lemma trim_padded a s b :
  forallb JS.isWhiteSpace a = true → forallb JS.isWhiteSpace b = true →
  JS.trim (a ++ s ++ b) = JS.trim s.
Proof.
  intros Ha Hb. rewrite <- (trim_app_end s b Hb).
  unfold JS.trim, JS.trimStart. by rewrite dropWhile_app_all.
Qed.

Lemma isNumeric_trim s t :
  JS.trim s = JS.trim t → isNumeric (Some s) = isNumeric (Some t).
Proof.
  intros H. apply eq_true_iff_eq. rewrite !isNumeric_spec. split.
  - intros (s' & [= <-] & Hf). exists t. by rewrite <- H.
  - intros (t' & [= <-] & Hf). exists s. by rewrite H.
Qed.

(** X7. The numeric check ignores white space around a value: a value
    and the same value with any white space before and after it get the
    same answer. *)
Theorem X7_isNumeric_padding (a s b : list N) :
  forallb JS.isWhiteSpace a = true → forallb JS.isWhiteSpace b = true →
  isNumeric (Some (a ++ s ++ b)) = isNumeric (Some s).
Proof. intros Ha Hb. by apply isNumeric_trim, trim_padded. Qed.

Lemma X7_isNumeric_padding_witness :
  forallb JS.isWhiteSpace (JS.str "  ") = true
  ∧ forallb JS.isWhiteSpace [9; 160] = true
  ∧ isNumeric (Some (JS.str "  " ++ JS.str "151.25" ++ [9; 160]))
    = isNumeric (Some (JS.str "151.25")).
Proof.
  split; [reflexivity|]. split; [reflexivity|].
  exact (X7_isNumeric_padding (JS.str "  ") (JS.str "151.25") [9; 160]
           eq_refl eq_refl).
Defined.

Lemma numericChar_not_space c :
  Spec.numericChar c → JS.isWhiteSpace c = false.
Proof.
  unfold Spec.numericChar, JS.isWhiteSpace. intros H.
  apply not_true_is_false.
  rewrite !orb_true_iff, !andb_true_iff, !N.leb_le, !N.eqb_eq. lia.
Qed.

Lemma trim_numericChars t :
  Forall Spec.numericChar t → JS.trim t = t.
Proof.
  intros H. unfold JS.trim, JS.trimStart, JS.trimEnd.
  assert (∀ l, Forall Spec.numericChar l →
               JS.dropWhile JS.isWhiteSpace l = l) as Hd.
  { intros [|c l] Hl; [done|]. apply Forall_cons in Hl as [Hc _].
    simpl. by rewrite numericChar_not_space. }
  rewrite (Hd t H), Hd; [apply rev_involutive|].
  apply Forall_forall. intros c Hc. rewrite Forall_forall in H.
  apply H. by apply list_elem_of_In, in_rev, list_elem_of_In in Hc.
Qed.

Lemma decimalValue_bound ds :
  Spec.isDigits ds →
  (0 ≤ Spec.decimalValue ds < 10 ^ Z.of_nat (List.length ds))%Z.
Proof.
  induction 1 as [|d ds Hd _ IH]; simpl Spec.decimalValue; [simpl; lia|].
  replace (Z.of_nat (List.length (d :: ds)))
    with (Z.succ (Z.of_nat (List.length ds))) by (simpl; lia).
  rewrite Z.pow_succ_r by lia.
  assert (0 < 10 ^ Z.of_nat (List.length ds))%Z by (apply Z.pow_pos_nonneg; lia).
  nia.
Qed.

Lemma digits_finiteDecimal sg neg ds :
  Spec.signText sg neg → Spec.isDigits ds → ds ≠ [] →
  (List.length ds ≤ 308)%nat →
  Spec.finiteDecimal (sg ++ ds).
Proof.
  intros Hs Hd Hne Hl.
  exists sg, neg, ds, (Spec.decimalValue ds), 0%Z.
  split; [done|]. split; [done|]. split.
  - rewrite <- (app_nil_r ds) at 1. apply Spec.decimal_integer; try done.
    constructor.
  - left. split; [lia|]. rewrite Z.mul_1_r.
    pose proof (decimalValue_bound ds Hd) as [_ Hb].
    assert (10 ^ Z.of_nat (List.length ds) ≤ 10 ^ 308)%Z
      by (apply Z.pow_le_mono_r; lia).
    assert (10 ^ 308 < 2 ^ 1024 - 2 ^ 970)%Z by (vm_compute; reflexivity).
    lia.
Qed.

(** X8. Every text of 1 to 308 decimal digits is accepted by the numeric
    check, and so is the same text after a minus or a plus sign: the
    check accepts negative values. *)
Theorem X8_isNumeric_integers (ds : list N) :
  Spec.isDigits ds → ds ≠ [] → (List.length ds ≤ 308)%nat →
  isNumeric (Some ds) = true
  ∧ isNumeric (Some (45 :: ds)) = true
  ∧ isNumeric (Some (43 :: ds)) = true.
Proof.
  intros Hd Hne Hl.
  assert (∀ sg neg, Spec.signText sg neg → isNumeric (Some (sg ++ ds)) = true)
    as H.
  { intros sg neg Hs. apply isNumeric_spec. exists (sg ++ ds).
    split; [done|]. left.
    pose proof (digits_finiteDecimal sg neg ds Hs Hd Hne Hl) as Hf.
    rewrite trim_numericChars; [done|].
    by apply finiteDecimal_numericChar. }
  split; [apply (H [] false); constructor|].
  split; [apply (H [45] true); constructor|apply (H [43] false); constructor].
Qed.

Lemma X8_isNumeric_integers_witness :
  Spec.isDigits (JS.str "1000000")
  ∧ isNumeric (Some (45 :: JS.str "1000000")) = true.
Proof.
  assert (Spec.isDigits (JS.str "1000000")) as Hd.
  { apply forallb_isDigit. reflexivity. }
  split; [exact Hd|].
  exact (proj1 (proj2 (X8_isNumeric_integers (JS.str "1000000") Hd
                         ltac:(discriminate) ltac:(simpl; lia)))).
Defined.

(** X9. A literal in radix 16, 8 or 2 is accepted by the numeric check
    only without a sign: with a minus or a plus before it, it is
    rejected. *)
Theorem X9_isNumeric_signed_radix (t : list N) :
  Spec.finiteRadixInteger t →
  isNumeric (Some t) = true
  ∧ isNumeric (Some (45 :: t)) = false
  ∧ isNumeric (Some (43 :: t)) = false.
Proof.
  intros Hr. split.
  { apply isNumeric_spec. exists t. split; [done|]. right.
    rewrite trim_numericChars; [done|].
    by apply finiteRadixInteger_numericChar. }
  pose proof (finiteRadixInteger_numericChar t Hr) as Hc.
  destruct Hr as (p & radix & ds & v & -> & Hne & Hp & _ & _).
  assert (∀ s, s = 45 ∨ s = 43 →
               isNumeric (Some (s :: 48 :: p :: ds)) = false) as H.
  { intros s Hs. apply not_true_is_false.
    intros (s' & [= <-] & Hf)%isNumeric_spec.
    rewrite trim_numericChars in Hf.
    2:{ apply Forall_cons. split; [|done]. unfold Spec.numericChar. lia. }
    destruct Hf as [Hf|Hf].
    - apply finiteDecimal_scan in Hf as (l & Hl & _).
      destruct ds as [|d ds]; [done|].
      destruct Hs as [-> | ->];
        destruct Hp as [[[-> | ->] _]|[[[-> | ->] _]|[[-> | ->] _]]];
        done.
    - destruct Hf as (p' & radix' & ds' & v' & Heq & _).
      injection Heq as Heq _. destruct Hs; subst; discriminate. }
  split; apply H; tauto.
Qed.

Lemma X9_isNumeric_signed_radix_witness :
  Spec.finiteRadixInteger (JS.str "0x1A")
  ∧ isNumeric (Some (45 :: JS.str "0x1A")) = false.
Proof.
  assert (Spec.finiteRadixInteger (JS.str "0x1A")) as Hr.
  { apply finiteRadixInteger_scan. exists 26%Z. split; reflexivity. }
  split; [exact Hr|].
  exact (proj1 (proj2 (X9_isNumeric_signed_radix (JS.str "0x1A") Hr))).
Defined.

(** ** White space in dates *)

(** X10. The date check accepts only texts of ten characters, each a
    digit or a hyphen; a date with white space before or after it is
    rejected, where a numeric value would be accepted. *)
Theorem X10_date_exact (s : list N) :
  Moment.isValid (Some s) = true →
  List.length s = 10%nat
  ∧ Forall (fun c => 48 ≤ c ≤ 57 ∨ c = 45) s
  ∧ Forall (fun c => JS.isWhiteSpace c = false) s.
Proof.
  intros (yyyy & mm & dd & n & -> & Hl1 & Hl3 & Hl5 & Hd1 & Hd3 & Hd5 & _)
    %isValid_calendarDate.
  assert (Forall (fun c => 48 ≤ c ≤ 57 ∨ c = 45)
                 (yyyy ++ [45] ++ mm ++ [45] ++ dd)) as Hall.
  { repeat (apply Forall_app; split);
      try (eapply Forall_impl; [eassumption|by left]);
      by repeat constructor; right. }
  split; [rewrite !length_app, Hl1, Hl3, Hl5; reflexivity|].
  split; [done|].
  eapply Forall_impl; [exact Hall|]. intros c Hc. simpl in Hc.
  apply numericChar_not_space. unfold Spec.numericChar.
  destruct Hc as [Hc | ->]; [by left|]. right; right; right; right. by left.
Qed.

Lemma X10_date_exact_witness :
  Moment.isValid (Some (JS.str "2024-10-22")) = true
  ∧ List.length (JS.str "2024-10-22") = 10%nat.
Proof.
  split; [reflexivity|].
  exact (proj1 (X10_date_exact (JS.str "2024-10-22") eq_refl)).
Defined.

(** ** From a valid row to the record that is inserted *)

Lemma isNumeric_present v :
  isNumeric v = true → ∃ s, v = Some s ∧ isNumeric (Some s) = true.
Proof. destruct v as [s|]; [by exists s|done]. Qed.

(** X11. The record built from a row that passed the row check has a
    date that is a calendar date in the form YYYY-MM-DD and, in each of
    its twelve numeric fields, a text that the numeric check accepts;
    none of these thirteen fields is missing. *)
Theorem X11_record_of_valid_row (row : Row) :
  rowIsValid row = true →
  (∃ d, Route.date (Route.toRecord row) = Some d ∧ Spec.calendarDate d)
  ∧ Forall (fun field => ∃ s, field = Some s ∧ isNumeric (Some s) = true)
      [Route.prev_close (Route.toRecord row);
       Route.open (Route.toRecord row);
       Route.high (Route.toRecord row);
       Route.low (Route.toRecord row);
       Route.last (Route.toRecord row);
       Route.close (Route.toRecord row);
       Route.vwap (Route.toRecord row);
       Route.volume (Route.toRecord row);
       Route.turnover (Route.toRecord row);
       Route.trades (Route.toRecord row);
       Route.deliverable (Route.toRecord row);
       Route.percentage_deliverable (Route.toRecord row)].
Proof.
  rewrite rowIsValid_spec. unfold Spec.passesAllChecks.
  rewrite numericColumns_eq.
  intros [Hd Hn]%andb_true_iff. split.
  - simpl. destruct (row !! JS.str "Date") as [d|]; [|done].
    exists d. split; [done|]. by apply isValid_calendarDate.
  - change (forallb (fun field => isNumeric field)
              (map (fun col => row !! col)
                 (map JS.str
                    ["Prev Close"; "Open"; "High"; "Low"; "Last"; "Close";
                     "VWAP"; "Volume"; "Turnover"; "Trades";
                     "Deliverable Volume"; "%Deliverble"]%string)) = true)
      in Hn.
    rewrite forallb_forall in Hn. apply Forall_forall.
    intros field Hf. apply isNumeric_present, Hn, list_elem_of_In, Hf.
Qed.

Lemma X11_record_of_valid_row_witness :
  rowIsValid Samples.goodRow = true
  ∧ ∃ d, Route.date (Route.toRecord Samples.goodRow) = Some d
         ∧ Spec.calendarDate d.
Proof.
  assert (rowIsValid Samples.goodRow = true) as H by (vm_compute; reflexivity).
  split; [exact H|].
  exact (proj1 (X11_record_of_valid_row Samples.goodRow H)).
Defined.

(** ** The upload route on a complete stream *)

(** X12. For a file with a complete header that is read to its end, the
    upload route gives one answer, 201, 500 or 400; it is 400 exactly
    when no row is valid, and then [insertMany] is not called;
    otherwise [insertMany] is called once, with the records of the valid
    rows in input order, as many as the summary counts as successful. *)
Theorem X12_upload_complete_stream {Inserted Failure : Type}
    (insertMany : list Route.PersistedRecord → Inserted + Failure)
    (headers : list (list N)) (rows : list Row) :
  Spec.headerComplete headers →
  ∃ reply,
    Upload.uploadCSV insertMany None
      (Some (EvHeaders headers :: map EvData rows ++ [EvEnd])) = [reply]
    ∧ (Upload.replyStatus reply = 201 ∨ Upload.replyStatus reply = 500
       ∨ Upload.replyStatus reply = 400)%Z
    ∧ (Upload.replyStatus reply = 400%Z
       ↔ filter (fun r => rowIsValid r) rows = [])
    ∧ (filter (fun r => rowIsValid r) rows = [] →
       Upload.replyCalls reply = [])
    ∧ (filter (fun r => rowIsValid r) rows ≠ [] →
       Upload.replyCalls reply
       = [map Route.toRecord (filter (fun r => rowIsValid r) rows)])
    ∧ r_successfulRecords (Spec.summaryOf rows)
      = Some (List.length
                (map Route.toRecord (filter (fun r => rowIsValid r) rows))).
Proof.
  intros Hc. unfold Upload.uploadCSV.
  rewrite (validate_accepted _ _ Hc). simpl map.
  eexists. split; [reflexivity|].
  unfold Route.upload, Route.onValidationResult, Route.insertValidRecords.
  simpl. destruct (filter (fun r => rowIsValid r) rows) as [|r vs]; simpl.
  - repeat split; try done; tauto.
  - destruct (insertMany _); simpl;
      (split; [lia|]); (split; [split; [lia|done]|]);
      (split; [done|]); (split; [done|]); by rewrite length_map.
Qed.

Lemma X12_upload_complete_stream_witness :
  Spec.headerComplete Samples.header
  ∧ ∃ reply,
      Upload.uploadCSV (Inserted := list Route.PersistedRecord)
        (Failure := unit) inl None
        (Some (EvHeaders Samples.header
               :: map EvData [Samples.goodRow; Samples.badDateRow]
               ++ [EvEnd])) = [reply]
      ∧ (Upload.replyStatus reply = 201 ∨ Upload.replyStatus reply = 500
         ∨ Upload.replyStatus reply = 400)%Z.
Proof.
  split; [apply sample_header_complete|].
  destruct (X12_upload_complete_stream (Inserted := list Route.PersistedRecord)
              (Failure := unit) inl Samples.header
              [Samples.goodRow; Samples.badDateRow] sample_header_complete)
    as (reply & H1 & H2 & _).
  exists reply. split; [exact H1|exact H2].
Defined.

(** ** The stock queries *)

(** X13. [getAverageVwap] queries the database at most once, and only
    when start_date, end_date and symbol are all given and non-empty and
    both dates parse; the query then carries the two parsed dates and
    the symbol.  Without a query the answer is 400; with one it is 404
    when the result is empty, 200 with the first row's average when it
    is not, and 500 when the query is rejected. *)
Theorem X13_getAverageVwap {Date Num Sym Failure : Type}
    (newDate : list N → option Date)
    (aggregateVwap : Stocks.Match → list Num + Failure)
    (q : Stocks.Query) :
  let o := Stocks.getAverageVwap (Sym := Sym) newDate aggregateVwap q in
  (Stocks.queries o = []
   ∨ ∃ from to s,
       Stocks.queries o
       = [{| Stocks.date_gte := from; Stocks.date_lte := to;
             Stocks.match_symbol := Some s |}]
       ∧ Stocks.start_date q <> None ∧ Stocks.end_date q <> None
       ∧ Stocks.symbol q = Some s ∧ s ≠ []
       ∧ newDate (JS.ToString (Stocks.start_date q)) = Some from
       ∧ newDate (JS.ToString (Stocks.end_date q)) = Some to)
  ∧ (Stocks.queries o ≠ [] ↔
     Stocks.given (Stocks.start_date q) = true
     ∧ Stocks.given (Stocks.end_date q) = true
     ∧ Stocks.given (Stocks.symbol q) = true
     ∧ is_Some (newDate (JS.ToString (Stocks.start_date q)))
     ∧ is_Some (newDate (JS.ToString (Stocks.end_date q))))
  ∧ (Stocks.queries o = [] ↔ Stocks.status (Stocks.response o) = 400%Z)
  ∧ (∀ m, Stocks.queries o = [m] →
       match aggregateVwap m with
       | inl [] => Stocks.status (Stocks.response o) = 404%Z
       | inl (first :: _) =>
           Stocks.status (Stocks.response o) = 200%Z
           ∧ ∃ s a b, Stocks.body (Stocks.response o)
                      = Stocks.AverageVwap s a b first
       | inr _ => Stocks.status (Stocks.response o) = 500%Z
       end).
Proof.
  unfold Stocks.getAverageVwap.
  destruct q as [[[|c1 sd]|] [[|c2 ed]|] [[|c3 sy]|] lim]; simpl;
    try (split; [by left|]; split; [split; [done|intros (?&?&?&?&?); done]|];
         split; [done|]; done).
  destruct (newDate (c1 :: sd)) as [from|] eqn:H1;
    [destruct (newDate (c2 :: ed)) as [to|] eqn:H2|]; simpl.
  - split; [right; by exists from, to, (c3 :: sy)|].
    split; [split; [intros _; repeat split; by eexists|done]|].
    split.
    + split; [done|].
      by destruct (aggregateVwap _) as [[|first rest]|].
    + intros m [= <-].
      destruct (aggregateVwap _) as [[|first rest]|]; simpl; try done.
      split; [done|]. by eexists _, _, _.
  - split; [by left|].
    split; [split; [done|intros (_&_&_&_&[? [=]])]|]. done.
  - split; [by left|].
    split; [split; [done|intros (_&_&_&[? [=]]&_)]|]. done.
Qed.

Lemma foldl_map {A B} (add : A → A → A) (f : B → A) l z :
  foldl (fun total record => add total (f record)) z l
  = foldl add z (map f l).
Proof. revert z; induction l as [|x l IH]; intros z; simpl; [done|apply IH]. Qed.

(** X14. [getAverageClose] reads the records at most once, and only
    when start_date, end_date and symbol are all given and non-empty and
    both dates parse.  Without a read the answer is 400; with one it is
    404 when no record is found, 500 when the read is rejected, and
    otherwise 200 with the sum of the [close] of the records found,
    added up from 0 in the order found, divided by their number and
    written with two decimals. *)
Theorem X14_getAverageClose {Date Num Doc Sym Failure : Type}
    (newDate : list N → option Date)
    (find : Stocks.Match → list Doc + Failure)
    (close : Doc → Num) (zero : Num) (add : Num → Num → Num)
    (divide : Num → nat → Num) (toFixed2 : Num → list N)
    (q : Stocks.Query) :
  let o := Stocks.getAverageClose (Sym := Sym) newDate find close zero add
             divide toFixed2 q in
  (Stocks.queries o ≠ [] ↔
   Stocks.given (Stocks.start_date q) = true
   ∧ Stocks.given (Stocks.end_date q) = true
   ∧ Stocks.given (Stocks.symbol q) = true
   ∧ is_Some (newDate (JS.ToString (Stocks.start_date q)))
   ∧ is_Some (newDate (JS.ToString (Stocks.end_date q))))
  ∧ (List.length (Stocks.queries o) ≤ 1)%nat
  ∧ (Stocks.queries o = [] ↔ Stocks.status (Stocks.response o) = 400%Z)
  ∧ (∀ m, Stocks.queries o = [m] →
       Stocks.match_symbol m = Stocks.symbol q
       ∧ newDate (JS.ToString (Stocks.start_date q))
         = Some (Stocks.date_gte m)
       ∧ newDate (JS.ToString (Stocks.end_date q))
         = Some (Stocks.date_lte m)
       ∧ match find m with
         | inl [] => Stocks.status (Stocks.response o) = 404%Z
         | inl result =>
             Stocks.response o
             = {| Stocks.status := 200;
                  Stocks.body :=
                    Stocks.AverageClose
                      (JS.ToString (Stocks.symbol q))
                      (JS.ToString (Stocks.start_date q))
                      (JS.ToString (Stocks.end_date q))
                      (toFixed2
                         (divide (foldl add zero (map close result))
                                 (List.length result))) |}
         | inr _ => Stocks.status (Stocks.response o) = 500%Z
         end).
Proof.
  unfold Stocks.getAverageClose.
  destruct q as [[[|c1 sd]|] [[|c2 ed]|] [[|c3 sy]|] lim]; simpl;
    try (split; [split; [done|intros (?&?&?&?&?); done]|];
         split; [lia|]; split; [done|]; done).
  destruct (newDate (c1 :: sd)) as [from|] eqn:H1;
    [destruct (newDate (c2 :: ed)) as [to|] eqn:H2|]; simpl.
  - split; [split; [intros _; repeat split; by eexists|done]|].
    split; [lia|]. split.
    + split; [done|].
      by destruct (find _) as [[|first rest]|].
    + intros m [= <-]. simpl. do 3 (split; [done|]).
      destruct (find _) as [[|first rest]|]; simpl; try done.
      rewrite (foldl_map add close). reflexivity.
  - split; [split; [done|intros (_&_&_&_&[? [=]])]|].
    split; [lia|]. done.
  - split; [split; [done|intros (_&_&_&[? [=]]&_)]|].
    split; [lia|]. done.
Qed.

(** ** The limit of the highest-volume query *)

Lemma isRadixDigit_decimal c :
  JS.isRadixDigit 10 c = JS.isDigit c.
Proof.
  unfold JS.isRadixDigit, JS.digitOf, JS.isDigit.
  destruct (N.leb_spec 48 c), (N.leb_spec c 57), (N.leb_spec 97 c),
    (N.leb_spec c 102), (N.leb_spec 65 c), (N.leb_spec c 70); simpl;
    try lia;
    repeat match goal with
           | |- context [(?a <? ?b)%Z] => destruct (Z.ltb_spec a b)
           end; try done; lia.
Qed.

Lemma parseInt_no_digit s c rest :
  snd (JS.scanSign (JS.trimStart s)) = c :: rest →
  JS.isDigit c = false → Stocks.parseInt (Some s) = Stocks.IntNaN.
Proof.
  intros Hs Hc. unfold Stocks.parseInt. simpl JS.ToString.
  destruct (JS.scanSign (JS.trimStart s)) as [neg t]. simpl in Hs. subst t.
  assert (c ≠ 48) as Hz.
  { intros ->. done. }
  assert ((match rest with
           | b :: rest' =>
               if (c =? 48) && ((b =? 120) || (b =? 88)) then (16%Z, rest')
               else (10%Z, c :: rest)
           | [] => (10%Z, c :: rest)
           end) = (10%Z, c :: rest)) as Hr.
  { destruct rest as [|b rest']; [done|].
    destruct (N.eqb_spec c 48); [done|]. done. }
  rewrite Hr. simpl. by rewrite isRadixDigit_decimal, Hc.
Qed.

Lemma queryLimit_nonzero limit : Stocks.queryLimit limit ≠ 0%Z.
Proof.
  unfold Stocks.queryLimit.
  destruct (Stocks.parseInt limit) as [|neg m] eqn:E; [done|].
  destruct (Z.eqb_spec m 0); [done|]. destruct neg; lia.
Qed.

(** X15. The limit the highest-volume query is sent with is never 0: a
    limit that is not given, that is empty, or that does not begin
    (after white space and one sign) with a digit gives 1, and so does a
    limit that reads as zero. *)
Theorem X15_queryLimit_default (limit : option (list N)) :
  Stocks.queryLimit limit ≠ 0%Z
  ∧ Stocks.queryLimit None = 1%Z
  ∧ (∀ s c rest,
       limit = Some s → snd (JS.scanSign (JS.trimStart s)) = c :: rest →
       JS.isDigit c = false → Stocks.queryLimit limit = 1%Z)
  ∧ (∀ s, limit = Some s → snd (JS.scanSign (JS.trimStart s)) = [] →
          Stocks.queryLimit limit = 1%Z).
Proof.
  split; [apply queryLimit_nonzero|].
  split; [reflexivity|].
  split.
  - intros s c rest -> Hs Hc. unfold Stocks.queryLimit.
    by rewrite (parseInt_no_digit s c rest).
  - intros s -> Hs. unfold Stocks.queryLimit, Stocks.parseInt.
    simpl JS.ToString. destruct (JS.scanSign (JS.trimStart s)) as [neg t].
    simpl in Hs. subst t. reflexivity.
Qed.

Lemma parseInt_digits a sg neg ds :
  forallb JS.isWhiteSpace a = true → Spec.signText sg neg →
  Spec.isDigits ds → ds ≠ [] →
  Stocks.parseInt (Some (a ++ sg ++ ds))
  = Stocks.IntValue neg (Spec.decimalValue ds).
Proof.
  intros Ha Hs Hd Hne. unfold Stocks.parseInt. simpl JS.ToString.
  unfold JS.trimStart. rewrite dropWhile_app_all by done.
  assert (JS.dropWhile JS.isWhiteSpace (sg ++ ds) = sg ++ ds) as ->.
  { assert (Forall Spec.numericChar (sg ++ ds)) as Hall.
    { apply Forall_app. split; [by apply (sign_numericChar _ neg)|].
      by apply digits_numericChar. }
    destruct (sg ++ ds) as [|c l]; [done|].
    apply Forall_cons in Hall as [Hc _]. simpl.
    by rewrite numericChar_not_space. }
  rewrite (scanSign_text _ _ _ Hs) by by apply digits_stop_sign.
  assert ((match ds with
           | x :: b :: rest' =>
               if (x =? 48) && ((b =? 120) || (b =? 88)) then (16%Z, rest')
               else (10%Z, ds)
           | _ => (10%Z, ds)
           end) = (10%Z, ds)) as ->.
  { destruct ds as [|x [|b rest']]; try done.
    apply Forall_cons in Hd as [_ [Hb _]%Forall_cons].
    destruct (N.eqb_spec b 120), (N.eqb_spec b 88); try lia.
    by rewrite andb_false_r. }
  rewrite <- (app_nil_r ds) at 1. rewrite span_app.
  - rewrite digitsValue_decimal by done. by destruct ds.
  - apply forallb_forall. intros c Hc. rewrite isRadixDigit_decimal.
    apply forallb_isDigit in Hd. rewrite forallb_forall in Hd. by apply Hd.
  - done.
Qed.

(** X16. A limit written as decimal digits, after any white space, that
    writes a number of at most 2^53 (a number of that size is a Number
    as it stands), is used as the number it writes, and with a minus
    sign before the digits as the negative of that number; only when the
    number is zero is the limit 1. *)
Theorem X16_queryLimit_digits (a ds : list N) :
  forallb JS.isWhiteSpace a = true → Spec.isDigits ds → ds ≠ [] →
  (Spec.decimalValue ds ≤ 2 ^ 53)%Z →
  Stocks.queryLimit (Some (a ++ ds))
  = (if (Spec.decimalValue ds =? 0)%Z then 1 else Spec.decimalValue ds)%Z
  ∧ Stocks.queryLimit (Some (a ++ 45 :: ds))
    = (if (Spec.decimalValue ds =? 0)%Z then 1
       else - Spec.decimalValue ds)%Z.
Proof.
  intros Ha Hd Hne _. unfold Stocks.queryLimit. split.
  - pose proof (parseInt_digits a [] false ds Ha Spec.sign_none Hd Hne) as H.
    simpl in H. by rewrite H.
  - pose proof (parseInt_digits a [45] true ds Ha Spec.sign_minus Hd Hne)
      as H.
    simpl in H. by rewrite H.
Qed.

Lemma X16_queryLimit_digits_witness :
  Spec.isDigits (JS.str "25")
  ∧ (Spec.decimalValue (JS.str "25") ≤ 2 ^ 53)%Z
  ∧ Stocks.queryLimit (Some (JS.str " " ++ JS.str "25")) = 25%Z
  ∧ Stocks.queryLimit (Some (JS.str " " ++ 45 :: JS.str "25")) = (-25)%Z.
Proof.
  assert (Spec.isDigits (JS.str "25")) as Hd.
  { apply forallb_isDigit. reflexivity. }
  assert (Spec.decimalValue (JS.str "25") ≤ 2 ^ 53)%Z as Hb.
  { vm_compute. discriminate. }
  split; [exact Hd|]. split; [exact Hb|].
  exact (X16_queryLimit_digits (JS.str " ") (JS.str "25") eq_refl Hd
           ltac:(discriminate) Hb).
Defined.

(** ** The highest-volume query *)

(** X17. For a limit that reads as an integer of magnitude at most 2^53
    (or as none), [getHighest] needs start_date and end_date only: it
    queries the database, once, exactly when both are given, non-empty
    and parse, whatever the symbol is.  The query filters on the symbol
    exactly when a non-empty symbol is given, and its limit is the limit
    read from the query string, never 0.  A result that is not empty is
    answered with 200 and one entry per group, in the order of the
    result. *)
Theorem X17_getHighest {Date Num Sym Failure : Type}
    (newDate : list N → option Date)
    (aggregateHighest :
       Stocks.HighestPipeline → list (Stocks.Group (Date := Date)
                                        (Num := Num) (Sym := Sym)) + Failure)
    (isoDay : Date → list N) (q : Stocks.Query) :
  (Z.abs (Stocks.queryLimit (Stocks.limit q)) ≤ 2 ^ 53)%Z →
  let o := Stocks.getHighest newDate aggregateHighest isoDay q in
  (Stocks.queries o ≠ [] ↔
   Stocks.given (Stocks.start_date q) = true
   ∧ Stocks.given (Stocks.end_date q) = true
   ∧ is_Some (newDate (JS.ToString (Stocks.start_date q)))
   ∧ is_Some (newDate (JS.ToString (Stocks.end_date q))))
  ∧ (List.length (Stocks.queries o) ≤ 1)%nat
  ∧ (Stocks.queries o = [] ↔ Stocks.status (Stocks.response o) = 400%Z)
  ∧ (∀ p, Stocks.queries o = [p] →
       Stocks.highest_limit p = Stocks.queryLimit (Stocks.limit q)
       ∧ Stocks.highest_limit p ≠ 0%Z
       ∧ (Stocks.match_symbol (Stocks.highest_match p) = None
          ↔ Stocks.given (Stocks.symbol q) = false)
       ∧ (∀ s, Stocks.match_symbol (Stocks.highest_match p) = Some s →
               Stocks.symbol q = Some s ∧ s ≠ [])
       ∧ match aggregateHighest p with
         | inl [] => Stocks.status (Stocks.response o) = 404%Z
         | inl result =>
             Stocks.response o
             = {| Stocks.status := 200;
                  Stocks.body :=
                    Stocks.HighestVolume
                      (map (fun g => (isoDay (Stocks.group_date g),
                                      Stocks.group_symbol g,
                                      Stocks.group_volume g)) result) |}
         | inr _ => Stocks.status (Stocks.response o) = 500%Z
         end).
Proof.
  intros _. unfold Stocks.getHighest.
  destruct q as [[[|c1 sd]|] [[|c2 ed]|] sy lim]; simpl;
    try (split; [split; [done|intros (?&?&?&?); done]|];
         split; [lia|]; split; [done|]; done).
  destruct (newDate (c1 :: sd)) as [from|] eqn:H1;
    [destruct (newDate (c2 :: ed)) as [to|] eqn:H2|]; simpl.
  - split; [split; [intros _; repeat split; by eexists|done]|].
    split; [lia|]. split.
    + split; [done|].
      by destruct (aggregateHighest _) as [[|first rest]|].
    + intros p [= <-]. simpl. split; [done|].
      split; [apply queryLimit_nonzero|].
      split; [by destruct sy as [[|c sy]|]|].
      split; [intros s; destruct sy as [[|c sy]|]; simpl; try done;
              by intros [= <-]|].
      by destruct (aggregateHighest _) as [[|first rest]|].
  - split; [split; [done|intros (_&_&_&[? [=]])]|].
    split; [lia|]. done.
  - split; [split; [done|intros (_&_&[? [=]]&_)]|].
    split; [lia|]. done.
Qed.

Lemma X17_getHighest_witness :
  (Z.abs (Stocks.queryLimit (Some (JS.str "5"))) ≤ 2 ^ 53)%Z
  ∧ Stocks.queries
      (Stocks.getHighest (Date := nat) (Num := nat) (Sym := list N)
         (Failure := unit) (fun _ => Some 0%nat) (fun _ => inl [])
         (fun _ => [])
         {| Stocks.start_date := Some (JS.str "2024-10-01");
            Stocks.end_date := Some (JS.str "2024-10-31");
            Stocks.symbol := None;
            Stocks.limit := Some (JS.str "5") |})
    = [ {| Stocks.highest_match :=
             {| Stocks.date_gte := 0%nat; Stocks.date_lte := 0%nat;
                Stocks.match_symbol := None |};
           Stocks.highest_limit := 5 |} ]
  ∧ Stocks.status
      (Stocks.response
         (Stocks.getHighest (Date := nat) (Num := nat) (Sym := list N)
            (Failure := unit) (fun _ => Some 0%nat) (fun _ => inl [])
            (fun _ => [])
            {| Stocks.start_date := Some (JS.str "2024-10-01");
               Stocks.end_date := Some (JS.str "2024-10-31");
               Stocks.symbol := None;
               Stocks.limit := Some (JS.str "5") |})) = 404%Z.
Proof.
  assert (Z.abs (Stocks.queryLimit (Some (JS.str "5"))) ≤ 2 ^ 53)%Z as Hb.
  { vm_compute. discriminate. }
  split; [exact Hb|]. split; [vm_compute; reflexivity|].
  exact (proj2 (proj2 (proj2 (proj2
    (proj2 (proj2 (proj2
      (X17_getHighest (Date := nat) (Num := nat) (Sym := list N)
         (Failure := unit) (fun _ => Some 0%nat) (fun _ => inl [])
         (fun _ => [])
         {| Stocks.start_date := Some (JS.str "2024-10-01");
            Stocks.end_date := Some (JS.str "2024-10-31");
            Stocks.symbol := None;
            Stocks.limit := Some (JS.str "5") |} Hb)))
       {| Stocks.highest_match :=
            {| Stocks.date_gte := 0%nat; Stocks.date_lte := 0%nat;
               Stocks.match_symbol := None |};
          Stocks.highest_limit := 5 |} eq_refl))))).
Defined.
